(** * mcp-proxy.js: session lifecycle, response reader and retry policy

    A shallow embedding of [src/mcp-proxy.js].  JavaScript values are an
    inductive type with the language's truthiness, strict equality and string
    coercion; the module-level variables [upstreamInitialized] and
    [upstreamSessionId], the cache file and the list of HTTP requests issued
    so far form an explicit state threaded through a state-and-exception
    monad; the upstream server, [JSON.parse] and [Math.random] are an
    environment the development is parametric in.

    Diagnostics ([console.error], the appends to /tmp/mcp_debug.log, the
    header dump) have no effect on any value below and are left out. *)

From Stdlib Require Import String Ascii ZArith List Bool Arith Lia DecimalString.
Import ListNotations.
Set Warnings "-register-all".
Open Scope list_scope.
Open Scope string_scope.

(** ** JavaScript strings

    A string is held as the bytes of its UTF-8 form, which is what the cache
    file and the bodies of the responses are decoded from.  The texts the
    proxy compares with ([data: ], its keywords, the line feed) are ASCII,
    so a search for them in the bytes finds what the search in the
    characters finds; [toLowerCase] maps the letters A to Z, and no other
    character has a lower case that could complete one of the keywords. *)

Module JsString.

Definition lower_ascii (c : ascii) : ascii :=
  let n := nat_of_ascii c in
  if ((65 <=? n) && (n <=? 90))%nat then ascii_of_nat (n + 32) else c.

(** [s.toLowerCase()] *)
Fixpoint toLowerCase (s : string) : string :=
  match s with
  | EmptyString => EmptyString
  | String c r => String (lower_ascii c) (toLowerCase r)
  end.

(** [s.startsWith(p)] *)
Definition startsWith (s p : string) : bool := String.prefix p s.

(** [s.includes(sub)] *)
Fixpoint includes (s sub : string) : bool :=
  startsWith s sub ||
  match s with
  | EmptyString => false
  | String _ r => includes r sub
  end.

(** [s.slice(n)] for a non-negative [n] *)
Fixpoint slice (n : nat) (s : string) : string :=
  match n, s with
  | O, _ => s
  | S k, String _ r => slice k r
  | S _, EmptyString => EmptyString
  end.

(** The one-byte white space of [trim]: tab, line feed, vertical tab, form
    feed, carriage return and space *)
Definition is_space (c : ascii) : bool :=
  let n := nat_of_ascii c in
  (((9 <=? n) && (n <=? 13)) || (n =? 32))%nat.

(** The other white space and line terminators of [trim], by the bytes of
    their UTF-8 form: U+00A0; U+1680, U+2000 to U+200A, U+2028, U+2029,
    U+202F, U+205F, U+3000 and U+FEFF *)
Definition is_space2 (a b : ascii) : bool :=
  ((nat_of_ascii a =? 194) && (nat_of_ascii b =? 160))%nat.

Definition is_space3 (a b c : ascii) : bool :=
  let n := nat_of_ascii a in
  let m := nat_of_ascii b in
  let k := nat_of_ascii c in
  ((n =? 225) && (m =? 154) && (k =? 128)
   || (n =? 226) && (m =? 128)
      && ((128 <=? k) && (k <=? 138) || (k =? 168) || (k =? 169) || (k =? 175))
   || (n =? 226) && (m =? 129) && (k =? 159)
   || (n =? 227) && (m =? 128) && (k =? 128)
   || (n =? 239) && (m =? 187) && (k =? 191))%nat.

(** The string without the white space character it starts with, if it
    starts with one *)
Definition drop_space (s : string) : option string :=
  match s with
  | String a r =>
      if is_space a then Some r
      else
        match r with
        | String b r2 =>
            if is_space2 a b then Some r2
            else
              match r2 with
              | String c r3 => if is_space3 a b c then Some r3 else None
              | EmptyString => None
              end
        | EmptyString => None
        end
  | EmptyString => None
  end.

(** The same from the end, on the bytes in reverse order *)
Definition drop_space_rev (s : string) : option string :=
  match s with
  | String a r =>
      if is_space a then Some r
      else
        match r with
        | String b r2 =>
            if is_space2 b a then Some r2
            else
              match r2 with
              | String c r3 => if is_space3 c b a then Some r3 else None
              | EmptyString => None
              end
        | EmptyString => None
        end
  | EmptyString => None
  end.

(** [drop] as long as it applies; [fuel] bounds the number of rounds, the
    length of the string is enough *)
Fixpoint drop_all (drop : string -> option string) (fuel : nat) (s : string)
  : string :=
  match fuel with
  | O => s
  | S f =>
      match drop s with
      | Some r => drop_all drop f r
      | None => s
      end
  end.

Fixpoint rev_append (s acc : string) : string :=
  match s with
  | EmptyString => acc
  | String c r => rev_append r (String c acc)
  end.

Definition reverse (s : string) : string := rev_append s EmptyString.

Definition trimStart (s : string) : string :=
  drop_all drop_space (String.length s) s.

Definition trimEnd (s : string) : string :=
  reverse (drop_all drop_space_rev (String.length s) (reverse s)).

(** [s.trim()] *)
Definition trim (s : string) : string := trimEnd (trimStart s).

Definition newline : ascii := ascii_of_nat 10.

(** [s.split("\n")]: never empty, the last element is what follows the last
    line feed *)
Fixpoint split_lines (s : string) : list string :=
  match s with
  | EmptyString => [EmptyString]
  | String c r =>
      if Ascii.eqb c newline then EmptyString :: split_lines r
      else match split_lines r with
           | first :: others => String c first :: others
           | [] => [String c EmptyString]
           end
  end.

(** [const last = lines.pop()]: the array without its last element, and that
    element ([undefined], modelled as the empty string, on an empty array,
    which [split] never returns) *)
Fixpoint pop (lines : list string) : list string * string :=
  match lines with
  | [] => ([], EmptyString)
  | [x] => ([], x)
  | x :: rest => let (init, last) := pop rest in (x :: init, last)
  end.

(** decimal rendering of an integer, as in a template literal *)
Definition of_Z (z : Z) : string := NilZero.string_of_int (Z.to_int z).

End JsString.

Import JsString.

(** ** JavaScript values *)

(** What [JSON.parse] returns, and [undefined], which property access adds.
    Numbers are the integers: the proxy only compares them with integer
    constants and tests them for zero. *)
Inductive Value : Type :=
| VUndefined
| VNull
| VBool (b : bool)
| VNum (n : Z)
| VStr (s : string)
| VArr (items : list Value)
| VObj (fields : list (string * Value)).

(** [if (v)], [v || d], [!v] *)
Definition truthy (v : Value) : bool :=
  match v with
  | VUndefined | VNull => false
  | VBool b => b
  | VNum n => negb (n =? 0)%Z
  | VStr s => negb (s =? "")
  | VArr _ | VObj _ => true
  end.

(** [a || b] *)
Definition js_or (a b : Value) : Value := if truthy a then a else b.

(** [a === b].  Objects and arrays compare by reference; two values obtained
    from different responses are never the same reference. *)
Definition strict_eq (a b : Value) : bool :=
  match a, b with
  | VUndefined, VUndefined => true
  | VNull, VNull => true
  | VBool x, VBool y => Bool.eqb x y
  | VNum x, VNum y => (x =? y)%Z
  | VStr x, VStr y => (x =? y)
  | _, _ => false
  end.

(** [String(v)], the coercion of template literals and of [new Error(v)] *)
Fixpoint js_String (v : Value) : string :=
  match v with
  | VUndefined => "undefined"
  | VNull => "null"
  | VBool true => "true"
  | VBool false => "false"
  | VNum n => of_Z n
  | VStr s => s
  | VArr items =>
      String.concat ","
        (map (fun x => match x with
                       | VUndefined | VNull => ""
                       | _ => js_String x
                       end) items)
  | VObj _ => "[object Object]"
  end.

Fixpoint assoc (k : string) (fields : list (string * Value)) : Value :=
  match fields with
  | [] => VUndefined
  | (k', v) :: rest => if k' =? k then v else assoc k rest
  end.

(** Errors: the [message] of an [Error] is a string; [status], [code] and
    [data] are the properties the proxy attaches, [undefined] when unset. *)
Record JsError : Type := mkError {
  err_message : string;
  err_status : Value;
  err_code : Value;
  err_data : Value
}.

(** [new Error(m)] *)
Definition new_Error (m : Value) : JsError :=
  {| err_message := match m with VUndefined => "" | _ => js_String m end;
     err_status := VUndefined;
     err_code := VUndefined;
     err_data := VUndefined |}.

(** The engine's [TypeError]s.  The texts follow V8's; the proxy only
    searches them for its keywords, and they hold none. *)
Definition TypeError_read (v : Value) (k : string) : JsError :=
  new_Error (VStr ("Cannot read properties of " ++ js_String v ++
                   " (reading '" ++ k ++ "')")).

Definition TypeError_not_a_function (what : string) : JsError :=
  new_Error (VStr (what ++ " is not a function")).

Inductive Result (A : Type) : Type :=
| Return (a : A)
| Throw (e : JsError).
Arguments Return {A} a.
Arguments Throw {A} e.

(** [v.k].  Reading a property of [undefined] or [null] throws; on the other
    primitives and on arrays none of the keys the proxy reads is defined. *)
Definition get_prop (v : Value) (k : string) : Result Value :=
  match v with
  | VUndefined | VNull => Throw (TypeError_read v k)
  | VObj fields => Return (assoc k fields)
  | _ => Return VUndefined
  end.

(** [v?.k] *)
Definition opt_prop (v : Value) (k : string) : Value :=
  match v with
  | VObj fields => assoc k fields
  | _ => VUndefined
  end.

(** [(v || EMPTY).toLowerCase()], EMPTY the empty string: a truthy [v] that
    is not a string has no such method *)
Definition TypeError_toLowerCase : JsError :=
  let quote := String (ascii_of_nat 34) EmptyString in
  TypeError_not_a_function
    ("(data.error.message || " ++ quote ++ quote ++ ").toLowerCase").

Definition lower_or_empty (v : Value) : Result string :=
  match js_or v (VStr "") with
  | VStr s => Return (toLowerCase s)
  | _ => Throw TypeError_toLowerCase
  end.

(** ** HTTP exchanges *)

(** The body handed to [JSON.stringify] *)
Record RequestBody : Type := mkBody {
  rpc_id : option string;
  rpc_method : string;
  rpc_params : option Value
}.

(** The second argument of [fetch]: the headers that vary, the body, and the
    abort signal of the init object ([None] when the key is absent). *)
Record Request : Type := mkRequest {
  req_authorization : option string;
  req_session : option Value;
  req_body : RequestBody;
  req_signal : option Z
}.

(** A response: [res.status], the headers the proxy reads, and the body as
    the chunks its reader yields. *)
Record Response : Type := mkResponse {
  res_status : Z;
  res_session : option string;
  res_content_type : option string;
  res_chunks : list string
}.

(** [res.ok] *)
Definition res_ok (r : Response) : bool :=
  ((200 <=? res_status r) && (res_status r <=? 299))%Z.

(** [await res.text()] *)
Definition res_text (r : Response) : string := String.concat "" (res_chunks r).

(** [res.headers.get(name)]: [null] when the header is absent *)
Definition header_value (h : option string) : Value :=
  match h with
  | Some s => VStr s
  | None => VNull
  end.

(** What awaiting [fetch] gives: a rejection or a response *)
Inductive FetchReply : Type :=
| Rejected (e : JsError)
| Resolved (r : Response).

(** ** Environment and state *)

(** Everything outside the program: its configuration, the builtins whose
    result the program does not determine, and the upstream server, which
    answers the [n]-th request of the process. *)
Record Env : Type := mkEnv {
  UPSTREAM_AUTH : string;
  TIMEOUT_MS : Z;
  JSON_parse : string -> Result Value;
  Math_random_id : nat -> string;
  upstream : nat -> Request -> FetchReply;
  writeFile_other : Value -> option string -> option string
}.

(** [Number(process.env.MCP_TIMEOUT_MS || 15000)] for an unset variable *)
Definition default_TIMEOUT_MS : Z := 15000.

Record World : Type := mkWorld {
  upstreamInitialized : bool;
  upstreamSessionId : Value;
  cache_file : option string;
  requests : list Request;
  random_calls : nat
}.

Definition set_initialized (b : bool) (w : World) : World :=
  {| upstreamInitialized := b;
     upstreamSessionId := upstreamSessionId w;
     cache_file := cache_file w;
     requests := requests w;
     random_calls := random_calls w |}.

Definition set_session (v : Value) (w : World) : World :=
  {| upstreamInitialized := upstreamInitialized w;
     upstreamSessionId := v;
     cache_file := cache_file w;
     requests := requests w;
     random_calls := random_calls w |}.

Definition set_cache (f : option string) (w : World) : World :=
  {| upstreamInitialized := upstreamInitialized w;
     upstreamSessionId := upstreamSessionId w;
     cache_file := f;
     requests := requests w;
     random_calls := random_calls w |}.

Definition push_request (r : Request) (w : World) : World :=
  {| upstreamInitialized := upstreamInitialized w;
     upstreamSessionId := upstreamSessionId w;
     cache_file := cache_file w;
     requests := r :: requests w;
     random_calls := random_calls w |}.

Definition bump_random (w : World) : World :=
  {| upstreamInitialized := upstreamInitialized w;
     upstreamSessionId := upstreamSessionId w;
     cache_file := cache_file w;
     requests := requests w;
     random_calls := S (random_calls w) |}.

(** Lines 44-61: the state the module body leaves, from the value of
    MCP_SESSION_ID and the content of the cache file (if it can be read). *)
Definition startup (MCP_SESSION_ID : option string) (file : option string)
  : World :=
  let from_env := js_or (match MCP_SESSION_ID with
                         | Some s => VStr s
                         | None => VUndefined
                         end) VNull in
  let sid :=
    if negb (truthy from_env) then
      match file with
      | Some data => js_or (VStr (trim data)) VNull
      | None => from_env
      end
    else from_env in
  {| upstreamInitialized := false;
     upstreamSessionId := sid;
     cache_file := file;
     requests := [];
     random_calls := 0 |}.

(** ** The monad of the asynchronous functions

    An [async] function is run to completion: it returns or throws, and
    leaves a state.  (Interleavings of several calls are the subject of the
    module [Concurrent] below.) *)

Definition M (A : Type) : Type := World -> Result A * World.

Definition ret {A} (a : A) : M A := fun w => (Return a, w).

Definition throw {A} (e : JsError) : M A := fun w => (Throw e, w).

Definition bind {A B} (m : M A) (k : A -> M B) : M B :=
  fun w =>
    match m w with
    | (Return a, w') => k a w'
    | (Throw e, w') => (Throw e, w')
    end.

(** [try { m } catch (err) { h err }] *)
Definition try_catch {A} (m : M A) (h : JsError -> M A) : M A :=
  fun w =>
    match m w with
    | (Return a, w') => (Return a, w')
    | (Throw e, w') => h e w'
    end.

(** a synchronous expression that may throw *)
Definition lift {A} (r : Result A) : M A := fun w => (r, w).

Definition gets {A} (f : World -> A) : M A := fun w => (Return (f w), w).

Definition modify (f : World -> World) : M unit := fun w => (Return tt, f w).

(** [if (b) { m }] *)
Definition when (b : bool) (m : M unit) : M unit := if b then m else ret tt.

Declare Scope js_scope.
Delimit Scope js_scope with js.
Notation "x <- m ;; k" := (bind m (fun x => k))
  (at level 100, m at next level, right associativity) : js_scope.
Notation "m ;; k" := (bind m (fun _ => k))
  (at level 100, right associativity) : js_scope.
Open Scope js_scope.

(** ** The proxy *)

Section Proxy.

Variable env : Env.

(** [await fetch(UPSTREAM_URL, init)]: the request is recorded, the upstream
    answers it. *)
Definition fetch (req : Request) : M Response :=
  fun w =>
    let w' := push_request req w in
    match upstream env (length (requests w)) req with
    | Rejected e => (Throw e, w')
    | Resolved r => (Return r, w')
    end.

(** [await fs.writeFile(SESSION_CACHE_PATH, data, "utf-8")] inside its
    [try]: a string replaces the content of the file; what Node does with
    another value is the environment's. *)
Definition writeFile (data : Value) (old : option string) : option string :=
  match data with
  | VStr s => Some s
  | _ => writeFile_other env data old
  end.

(** Lines 63-72 *)
Definition saveSessionToCache (sessionId : Value) : M unit :=
  fun w =>
    if negb (truthy sessionId) || strict_eq sessionId (upstreamSessionId w)
    then (Return tt, w)
    else (Return tt,
          set_cache (writeFile sessionId (cache_file w))
            (set_session sessionId w)).

(** The init object of lines 75-92, also of lines 210-225 and 248-260: the
    Authorization header when UPSTREAM_AUTH is not empty, the Mcp-Session-Id
    header when [upstreamSessionId] is truthy, and no [signal]. *)
Definition mk_request (w : World) (body : RequestBody) : Request :=
  {| req_authorization :=
       if negb (UPSTREAM_AUTH env =? "") then Some (UPSTREAM_AUTH env)
       else None;
     req_session :=
       if truthy (upstreamSessionId w) then Some (upstreamSessionId w)
       else None;
     req_body := body;
     req_signal := None |}.

(** Lines 136-150: one line of the stream; [Some data] when the function
    returns [data] from inside the loop. *)
Definition sse_line (line : string) : M (option Value) :=
  if startsWith line "data: " then
    let dataStr := trim (slice 6 line) in
    try_catch
      (data <- lift (JSON_parse env dataStr) ;;
       result <- lift (get_prop data "result") ;;
       let sid := opt_prop result "sessionId" in
       when (truthy sid) (saveSessionToCache sid) ;;
       error <- lift (get_prop data "error") ;;
       if truthy result || truthy error then ret (Some data) else ret None)
      (fun _ => ret None)
  else ret None.

(** Lines 135-151: [for (const line of lines)] *)
Fixpoint sse_lines (lines : list string) : M (option Value) :=
  match lines with
  | [] => ret None
  | line :: rest =>
      r <- sse_line line ;;
      match r with
      | Some data => ret (Some data)
      | None => sse_lines rest
      end
  end.

(** Lines 127-153: the read loop over the chunks of a body that ends *)
Fixpoint read_stream (chunks : list string) (buffer : string) : M Value :=
  match chunks with
  | [] => throw (new_Error (VStr "Upstream SSE stream ended without a result"))
  | value :: rest =>
      let (lines, buffer') := pop (split_lines (buffer ++ value)) in
      r <- sse_lines lines ;;
      match r with
      | Some data => ret data
      | None => read_stream rest buffer'
      end
  end.

(** Lines 108-119: the error thrown for a status outside 200-299 *)
Definition http_error (res : Response) : JsError :=
  let text := res_text res in
  let errorData :=
    match JSON_parse env text with
    | Return v => v
    | Throw _ => VUndefined
    end in
  let error := opt_prop errorData "error" in
  let err :=
    new_Error (js_or (opt_prop error "message")
                 (VStr ("Upstream error " ++ of_Z (res_status res) ++ ": "
                        ++ text))) in
  {| err_message := err_message err;
     err_status := VNum (res_status res);
     err_code := opt_prop error "code";
     err_data := err_data err |}.

(** Lines 99-160, after the response has arrived *)
Definition read_response (res : Response) : M Value :=
  let sessionId := header_value (res_session res) in
  when (truthy sessionId) (saveSessionToCache sessionId) ;;
  if negb (res_ok res) then throw (http_error res)
  else
    let contentType :=
      match res_content_type res with
      | Some s => s
      | None => ""
      end in
    if includes contentType "text/event-stream" then
      read_stream (res_chunks res) ""
    else
      data <- lift (JSON_parse env (res_text res)) ;;
      result <- lift (get_prop data "result") ;;
      let sid := opt_prop result "sessionId" in
      when (truthy sid) (saveSessionToCache sid) ;;
      ret data.

(** Lines 74-161 *)
Definition fetchMcp (body : RequestBody) : M Value :=
  req <- gets (fun w => mk_request w body) ;;
  res <- fetch req ;;
  read_response res.

(** Lines 163-172; a failing [unlink] is ignored, the file is then absent
    already. *)
Definition clearSessionCache : M unit :=
  modify (fun w => set_cache None (set_initialized false (set_session VNull w))).

(** [Math.random().toString(36).slice(2)] *)
Definition Math_random : M string :=
  fun w => (Return (Math_random_id env (random_calls w)), bump_random w).

Definition initRequestBody (clientNameSuffix : string) : RequestBody :=
  {| rpc_id := Some ("init-" ++ clientNameSuffix);
     rpc_method := "initialize";
     rpc_params :=
       Some (VObj [("protocolVersion", VStr "2024-11-05");
                   ("capabilities", VObj []);
                   ("clientInfo",
                    VObj [("name",
                           VStr ("mcp-stdio-http-proxy-" ++ clientNameSuffix));
                          ("version", VStr "1.0.0")])]) |}.

Definition initializedNotification : RequestBody :=
  {| rpc_id := None;
     rpc_method := "notifications/initialized";
     rpc_params := None |}.

(** Lines 210-225 and 248-260: the notification; its response is dropped *)
Definition send_initialized : M unit :=
  req <- gets (fun w => mk_request w initializedNotification) ;;
  _ <- fetch req ;;
  ret tt.

(** Line 239: the condition under which a failed handshake is retried *)
Definition init_should_retry (err : JsError) : bool :=
  let errMsg := toLowerCase (err_message err) in
  includes errMsg "not initialized" || includes errMsg "session" ||
  strict_eq (err_status err) (VNum 401) ||
  strict_eq (err_status err) (VNum 406).

(** Lines 197-228: the [try] block after [fetchMcp] has returned [data] *)
Definition init_after_response (data : Value) : M unit :=
  error <- lift (get_prop data "error") ;;
  if truthy error then
    errMsg <- lift (lower_or_empty (opt_prop error "message")) ;;
    if includes errMsg "already initialized" ||
       includes errMsg "already started"
    then modify (set_initialized true)
    else throw (new_Error (VStr ("Upstream Init error: " ++
                                 js_String (opt_prop error "message"))))
  else
    send_initialized ;;
    modify (set_initialized true).

(** Lines 195-228: the [try] block *)
Definition init_attempt (initRequestBody : RequestBody) : M unit :=
  data <- fetchMcp initRequestBody ;;
  init_after_response data.

(** Lines 229-267: the [catch] block *)
Definition init_recover (initRequestBody : RequestBody) (err : JsError)
  : M unit :=
  let errMsg := toLowerCase (err_message err) in
  if includes errMsg "already initialized" then modify (set_initialized true)
  else if init_should_retry err then
    modify (fun w => set_initialized false (set_session VNull w)) ;;
    retryData <- fetchMcp initRequestBody ;;
    error <- lift (get_prop retryData "error") ;;
    if truthy error then
      throw (new_Error (VStr ("Upstream Init Retry error: " ++
                              js_String (opt_prop error "message"))))
    else
      send_initialized ;;
      modify (set_initialized true)
  else throw err.

(** Lines 174-268 *)
Definition ensureUpstreamInitialized : M unit :=
  initialized <- gets upstreamInitialized ;;
  if initialized then ret tt
  else
    clientNameSuffix <- Math_random ;;
    let body := initRequestBody clientNameSuffix in
    try_catch (init_attempt body) (init_recover body).

(** Lines 288-292: [isSessionError] for an [error] member of a response *)
Definition isSessionError_envelope (errMsg : string) (error : Value) : bool :=
  includes errMsg "not initialized" || includes errMsg "session" ||
  includes errMsg "expired" ||
  strict_eq (opt_prop error "code") (VNum (-32000)).

(** Lines 311-316: [isSessionError] for a caught error *)
Definition isSessionError_thrown (err : JsError) : bool :=
  let errMsg := toLowerCase (err_message err) in
  includes errMsg "not initialized" || includes errMsg "session" ||
  includes errMsg "expired" ||
  strict_eq (err_status err) (VNum 401) ||
  strict_eq (err_status err) (VNum 406).

(** Lines 301-304: the error thrown for an [error] member *)
Definition error_of_envelope (error : Value) : JsError :=
  let err :=
    new_Error (js_or (opt_prop error "message")
                 (VStr "Unknown upstream error")) in
  {| err_message := err_message err;
     err_status := err_status err;
     err_code := if truthy (opt_prop error "code")
                 then opt_prop error "code" else err_code err;
     err_data := if truthy (opt_prop error "data")
                 then opt_prop error "data" else err_data err |}.

Definition requestBody (id method : string) (params : Value) : RequestBody :=
  {| rpc_id := Some id; rpc_method := method; rpc_params := Some params |}.

(** Lines 296-297 and 320-321 *)
Definition forget_session : M unit :=
  clearSessionCache ;;
  modify (set_session VNull).

(** Lines 270-328.  The recursion of the source is on [retryCount], which
    grows; here it is on [fuel], and [None] is returned when the fuel is
    used up ([forwardToHttpMcp_fuel_total] shows that two units are enough).
    [return await forwardToHttpMcp(...)] at line 298 is inside the [try]:
    what the recursive call throws reaches the [catch] of the caller. *)
Fixpoint forwardToHttpMcp_fuel (fuel : nat) (method : string)
  (params : Value) (retryCount : nat) : M (option Value) :=
  match fuel with
  | O => ret None
  | S fuel' =>
      let params := match params with VUndefined => VObj [] | _ => params end in
      ensureUpstreamInitialized ;;
      id <- Math_random ;;
      try_catch
        (data <- fetchMcp (requestBody id method params) ;;
         error <- lift (get_prop data "error") ;;
         if truthy error then
           errMsg <- lift (lower_or_empty (opt_prop error "message")) ;;
           if (retryCount <? 1)%nat && isSessionError_envelope errMsg error
           then
             forget_session ;;
             forwardToHttpMcp_fuel fuel' method params (retryCount + 1)
           else throw (error_of_envelope error)
         else ret (Some (opt_prop data "result")))
        (fun err =>
           if (retryCount <? 1)%nat && isSessionError_thrown err then
             forget_session ;;
             forwardToHttpMcp_fuel fuel' method params (retryCount + 1)
           else throw err)
  end.

(** A call as the request handlers make it: [retryCount] defaults to 0 *)
Definition forwardToHttpMcp (method : string) (params : Value)
  : M (option Value) :=
  forwardToHttpMcp_fuel 2 method params 0.

(** The methods the handlers of lines 331-384 forward *)
Definition forwarded_methods : list string :=
  ["tools/list"; "tools/call"; "resources/list"; "resources/read";
   "prompts/list"; "prompts/get"; "completion/complete"; "logging/setLevel"].

(** Calls made one after the other, each awaited before the next *)
Fixpoint forward_all (calls : list (string * Value))
  : M (list (Result (option Value))) :=
  match calls with
  | [] => ret []
  | (method, params) :: rest =>
      fun w =>
        let (r, w') := forwardToHttpMcp method params w in
        match forward_all rest w' with
        | (Return rs, w'') => (Return (r :: rs), w'')
        | (Throw e, w'') => (Throw e, w'')
        end
  end.

End Proxy.

(** ** Calls in flight together

    An [async] function runs until it awaits a promise that is pending, and
    other calls run in the meantime.  The first such point of a forwarded
    call is the [await fetch] of line 88 inside the [fetchMcp] of line 196:
    the [initialize] request has been sent and its response is awaited.  A
    call is followed up to that point and, when the response arrives, from
    there to the end of [ensureUpstreamInitialized] (in one piece: the
    interleavings at the later awaits are not needed below). *)

Module Concurrent.

Inductive Task : Type :=
| Called
| AwaitingInitialize (body : RequestBody) (reply : FetchReply)
| Settled (r : Result unit).

Section Steps.

Variable env : Env.

(** From the call of [ensureUpstreamInitialized] (lines 174-196) to the
    [await fetch] of line 88 *)
Definition start (w : World) : Task * World :=
  if upstreamInitialized w then (Settled (Return tt), w)
  else
    let clientNameSuffix := Math_random_id env (random_calls w) in
    let w0 := bump_random w in
    let body := initRequestBody clientNameSuffix in
    let req := mk_request env w0 body in
    (AwaitingInitialize body (upstream env (List.length (requests w0)) req),
     push_request req w0).

(** From the arrival of the response to the end of the function *)
Definition resume (body : RequestBody) (reply : FetchReply) : M unit :=
  try_catch
    (data <- match reply with
             | Rejected e => throw e
             | Resolved res => read_response env res
             end ;;
     init_after_response env data)
    (init_recover env body).

(** One turn of a call *)
Definition step (t : Task) (w : World) : Task * World :=
  match t with
  | Called => start w
  | AwaitingInitialize body reply =>
      let (r, w') := resume body reply w in (Settled r, w')
  | Settled r => (Settled r, w)
  end.

(** The calls of the process and the state they share *)
Definition System : Type := (list Task * World)%type.

(** The event loop gives a turn to the call number [i]. *)
Fixpoint turn (i : nat) (ts : list Task) (w : World) : System :=
  match ts, i with
  | [], _ => ([], w)
  | t :: rest, O => let (t', w') := step t w in (t' :: rest, w')
  | t :: rest, S j => let (rest', w') := turn j rest w in (t :: rest', w')
  end.

Fixpoint run (schedule : list nat) (sys : System) : System :=
  match schedule with
  | [] => sys
  | i :: later => run later (turn i (fst sys) (snd sys))
  end.

End Steps.

Definition awaiting (t : Task) : bool :=
  match t with
  | AwaitingInitialize _ _ => true
  | _ => false
  end.

(** How many [initialize] requests are awaiting their response *)
Definition in_flight (sys : System) : nat :=
  List.length (filter awaiting (fst sys)).

End Concurrent.

(** ** A concrete environment, for running the model

    A reader of JSON texts (objects, arrays, strings with backslash escapes,
    integers, [true], [false], [null]) to stand for [JSON.parse] in the
    examples.  The general statements below hold for every [JSON_parse]. *)

Module Json.

Definition dquote : ascii := ascii_of_nat 34.
Definition backslash : ascii := ascii_of_nat 92.

(** The white space of JSON: tab, line feed, carriage return and space *)
Definition is_ws (c : ascii) : bool :=
  let n := nat_of_ascii c in
  ((n =? 9) || (n =? 10) || (n =? 13) || (n =? 32))%nat.

Fixpoint skip_ws (s : string) : string :=
  match s with
  | String c r => if is_ws c then skip_ws r else s
  | EmptyString => EmptyString
  end.

Definition digit_of (c : ascii) : option Z :=
  let n := nat_of_ascii c in
  if ((48 <=? n) && (n <=? 57))%nat then Some (Z.of_nat (n - 48)) else None.

Fixpoint read_digits (s : string) (acc : Z) : Z * string :=
  match s with
  | String c r =>
      match digit_of c with
      | Some d => read_digits r (10 * acc + d)%Z
      | None => (acc, s)
      end
  | EmptyString => (acc, s)
  end.

(** The characters of a string literal, after its opening quote *)
Fixpoint read_string (s : string) : option (string * string) :=
  match s with
  | EmptyString => None
  | String c r =>
      if Ascii.eqb c dquote then Some (EmptyString, r)
      else if Ascii.eqb c backslash then
        match r with
        | String e r' =>
            let e' := if Ascii.eqb e "n"%char then newline else e in
            match read_string r' with
            | Some (body, rest) => Some (String e' body, rest)
            | None => None
            end
        | EmptyString => None
        end
      else
        match read_string r with
        | Some (body, rest) => Some (String c body, rest)
        | None => None
        end
  end.

(** A later member replaces an earlier one of the same name *)
Fixpoint set_field (k : string) (v : Value) (fields : list (string * Value))
  : list (string * Value) :=
  match fields with
  | [] => [(k, v)]
  | (k', v') :: rest =>
      if k' =? k then (k, v) :: rest else (k', v') :: set_field k v rest
  end.

Definition literal (word : string) (v : Value) (s : string)
  : option (Value * string) :=
  if startsWith s word then Some (v, slice (String.length word) s) else None.

Fixpoint parse_value (fuel : nat) (s : string) : option (Value * string) :=
  match fuel with
  | O => None
  | S f =>
      match skip_ws s with
      | EmptyString => None
      | String c r =>
          if Ascii.eqb c "n"%char then literal "null" VNull (String c r)
          else if Ascii.eqb c "t"%char then
            literal "true" (VBool true) (String c r)
          else if Ascii.eqb c "f"%char then
            literal "false" (VBool false) (String c r)
          else if Ascii.eqb c dquote then
            match read_string r with
            | Some (str, rest) => Some (VStr str, rest)
            | None => None
            end
          else if Ascii.eqb c "-"%char then
            match r with
            | String d _ =>
                match digit_of d with
                | Some _ => let (n, rest) := read_digits r 0 in
                            Some (VNum (- n), rest)
                | None => None
                end
            | EmptyString => None
            end
          else if Ascii.eqb c "["%char then
            match skip_ws r with
            | String "]"%char rest => Some (VArr [], rest)
            | _ =>
                (fix items (n : nat) (s : string) (acc : list Value)
                   : option (Value * string) :=
                   match n with
                   | O => None
                   | S n' =>
                       match parse_value f s with
                       | Some (v, rest) =>
                           match skip_ws rest with
                           | String ","%char rest' => items n' rest' (v :: acc)
                           | String "]"%char rest' =>
                               Some (VArr (rev (v :: acc)), rest')
                           | _ => None
                           end
                       | None => None
                       end
                   end) f r []
            end
          else if Ascii.eqb c "{"%char then
            match skip_ws r with
            | String "}"%char rest => Some (VObj [], rest)
            | _ =>
                (fix members (n : nat) (s : string)
                   (acc : list (string * Value)) : option (Value * string) :=
                   match n with
                   | O => None
                   | S n' =>
                       match skip_ws s with
                       | String k0 s1 =>
                           if Ascii.eqb k0 dquote then
                             match read_string s1 with
                             | Some (key, s2) =>
                                 match skip_ws s2 with
                                 | String ":"%char s3 =>
                                     match parse_value f s3 with
                                     | Some (v, rest) =>
                                         let acc' := set_field key v acc in
                                         match skip_ws rest with
                                         | String ","%char rest' =>
                                             members n' rest' acc'
                                         | String "}"%char rest' =>
                                             Some (VObj acc', rest')
                                         | _ => None
                                         end
                                     | None => None
                                     end
                                 | _ => None
                                 end
                             | None => None
                             end
                           else None
                       | EmptyString => None
                       end
                   end) f r []
            end
          else
            match digit_of c with
            | Some _ => let (n, rest) := read_digits (String c r) 0 in
                        Some (VNum n, rest)
            | None => None
            end
      end
  end.

Definition SyntaxError : JsError :=
  new_Error (VStr "Unexpected token in JSON").

Definition parse (s : string) : Result Value :=
  match parse_value (S (String.length s)) s with
  | Some (v, rest) =>
      match skip_ws rest with
      | EmptyString => Return v
      | _ => Throw SyntaxError
      end
  | None => Throw SyntaxError
  end.

End Json.

Module Scenario.

Import Json.

(** A text with apostrophes for quotes and dollar signs for line feeds *)
Fixpoint txt (s : string) : string :=
  match s with
  | EmptyString => EmptyString
  | String c r =>
      String (if Ascii.eqb c "'"%char then dquote
              else if Ascii.eqb c "$"%char then newline else c) (txt r)
  end.

Definition json_reply (status : Z) (session : option string) (body : string)
  : FetchReply :=
  Resolved {| res_status := status;
              res_session := session;
              res_content_type := Some "application/json";
              res_chunks := [txt body] |}.

Definition stream_reply (session : option string) (chunks : list string)
  : FetchReply :=
  Resolved {| res_status := 200;
              res_session := session;
              res_content_type := Some "text/event-stream";
              res_chunks := map txt chunks |}.

Definition network_down : FetchReply :=
  Rejected (new_Error (VStr "fetch failed")).

(** An environment whose upstream answers a given function of the request
    number and the request.  [fs.writeFile] refuses data that is neither a
    string nor a buffer: the write throws, line 69 catches the error and the
    file is as before. *)
Definition env_of (server : nat -> Request -> FetchReply) : Env :=
  {| UPSTREAM_AUTH := "";
     TIMEOUT_MS := default_TIMEOUT_MS;
     JSON_parse := Json.parse;
     Math_random_id := fun n => "r" ++ of_Z (Z.of_nat n);
     upstream := server;
     writeFile_other := fun _ old => old |}.

(** An upstream that plays a script, whatever it is asked *)
Definition scripted (script : list FetchReply) : Env :=
  env_of (fun n _ => nth n script network_down).

(** The same reader with an error that quotes the text it rejects, as the
    engine's does *)
Definition parse_quoting (s : string) : Result Value :=
  match Json.parse s with
  | Return v => Return v
  | Throw _ =>
      Throw (new_Error (VStr ("Unexpected token, '" ++ s
                              ++ "' is not valid JSON")))
  end.

Definition scripted_quoting (script : list FetchReply) : Env :=
  {| UPSTREAM_AUTH := "";
     TIMEOUT_MS := default_TIMEOUT_MS;
     JSON_parse := parse_quoting;
     Math_random_id := fun n => "r" ++ of_Z (Z.of_nat n);
     upstream := fun n _ => nth n script network_down;
     writeFile_other := fun _ old => old |}.

(** A string given by its bytes *)
Definition bytes (l : list nat) : string :=
  fold_right (fun n s => String (ascii_of_nat n) s) EmptyString l.

Definition methods_of (w : World) : list string :=
  rev (map (fun r => rpc_method (req_body r)) (requests w)).

Definition sessions_of (w : World) : list (option Value) :=
  rev (map req_session (requests w)).

End Scenario.

Module Upstreams.

Import Scenario.

(** Rejects every forwarded request with status 401, and the first
    [initialize] of every handshake too (the requests 0 and 4 of a process);
    accepts the retried [initialize] and the notification. *)
Definition unauthorized : Env :=
  env_of (fun n r =>
            let m := rpc_method (req_body r) in
            if m =? "initialize" then
              if Nat.even n
              then json_reply 401 None "{'error':{'code':-32001,'message':'Unauthorized'}}"
              else json_reply 200 (Some "s1") "{'jsonrpc':'2.0','result':{}}"
            else if m =? "notifications/initialized" then json_reply 202 None ""
            else json_reply 401 None "{'error':{'code':-32001,'message':'Unauthorized'}}").

(** Accepts every handshake and answers every forwarded request with an
    [error] member that says the session expired. *)
Definition always_expired : Env :=
  env_of (fun n r =>
            let m := rpc_method (req_body r) in
            if m =? "initialize" then
              json_reply 200 (Some "s1") "{'jsonrpc':'2.0','result':{}}"
            else if m =? "notifications/initialized" then json_reply 202 None ""
            else json_reply 200 None
                   "{'jsonrpc':'2.0','error':{'code':-32000,'message':'Session expired'}}").

(** Accepts everything and never names a session. *)
Definition agreeable : Env :=
  env_of (fun n r => json_reply 200 None "{'jsonrpc':'2.0','result':{}}").

(** Accepts everything, and names the session [T] in its response to every
    [initialize]. *)
Definition assigning : Env :=
  env_of (fun n r =>
            if rpc_method (req_body r) =? "initialize"
            then json_reply 200 (Some "T") "{'jsonrpc':'2.0','result':{}}"
            else json_reply 200 None "{'jsonrpc':'2.0','result':{}}").

End Upstreams.

Module States.

(** A session that is ready, with the token [T] in memory and in the file *)
Definition ready : World :=
  {| upstreamInitialized := true;
     upstreamSessionId := VStr "T";
     cache_file := Some "T";
     requests := [];
     random_calls := 0 |}.

End States.

(** ** The request handlers *)

Section Handlers.

Variable env : Env.

(** Lines 335-343: the tool the proxy adds to the list *)
Definition update_tool : Value :=
  VObj [("name", VStr "update");
        ("description",
         VStr "Refresh the tool list from the upstream server and reset the session cache.");
        ("inputSchema",
         VObj [("type", VStr "object");
               ("properties", VObj []);
               ("required", VArr [])])].

(** Lines 352-357: what a call of that tool returns *)
Definition update_confirmation : Value :=
  VObj [("content",
         VArr [VObj [("type", VStr "text");
                     ("text",
                      VStr "Successfully cleared session cache. The tool list will be re-initialized from the upstream on the next request.")]])].

(** The member [k] of an object that has it, set to [v] in place *)
Fixpoint replace_field (k : string) (v : Value)
  (fields : list (string * Value)) : list (string * Value) :=
  match fields with
  | [] => []
  | (k', v') :: rest =>
      if k' =? k then (k', v) :: rest else (k', v') :: replace_field k v rest
  end.

(** [result.tools.push(tool)] for a [result] whose [tools] is truthy: an
    array grows in place (and [result] with it); no other value that JSON
    can hold has a method [push]. *)
Definition push_tool (result tool : Value) : Result Value :=
  match opt_prop result "tools" with
  | VArr items =>
      match result with
      | VObj fields =>
          Return (VObj (replace_field "tools" (VArr (items ++ [tool])%list)
                          fields))
      | _ => Return result
      end
  | _ => Throw (TypeError_not_a_function "result.tools.push")
  end.

(** Lines 331-346: the handler of tools/list *)
Definition handle_tools_list (params : Value) : M (option Value) :=
  r <- forwardToHttpMcp env "tools/list" params ;;
  match r with
  | None => ret None
  | Some result =>
      if truthy result && truthy (opt_prop result "tools") then
        result' <- lift (push_tool result update_tool) ;;
        ret (Some result')
      else ret (Some result)
  end.

(** Lines 348-360: the handler of tools/call *)
Definition handle_tools_call (params : Value) : M (option Value) :=
  name <- lift (get_prop params "name") ;;
  if strict_eq name (VStr "update") then
    clearSessionCache ;;
    ret (Some update_confirmation)
  else forwardToHttpMcp env "tools/call" params.

(** Lines 362-384: the six handlers that only forward *)
Definition handle_forward (method : string) (params : Value)
  : M (option Value) :=
  forwardToHttpMcp env method params.

(** The handlers by the method they are registered for *)
Definition handle (method : string) (params : Value)
  : option (M (option Value)) :=
  if method =? "tools/list" then Some (handle_tools_list params)
  else if method =? "tools/call" then Some (handle_tools_call params)
  else if existsb (String.eqb method) forwarded_methods
       then Some (handle_forward method params)
       else None.

End Handlers.

(** * Vocabulary of the statements *)

(** [sub] occurs in [s] *)
Definition contains (s sub : string) : Prop :=
  exists pre post, s = pre ++ sub ++ post.

(** [keyword] occurs in [message], whatever the case of the letters of
    [message] *)
Definition mentions (message keyword : string) : Prop :=
  contains (toLowerCase message) keyword.

(** The rule of the specification, one function for every site: status 401
    or 406, one of three keywords in the message, or the code -32000 *)
Definition SessionError_as_stated (message : string) (status code : Value)
  : bool :=
  let m := toLowerCase message in
  strict_eq status (VNum 401) || strict_eq status (VNum 406) ||
  includes m "session" || includes m "not initialized" ||
  includes m "expired" || strict_eq code (VNum (-32000)).

(** The session token a response body carries: [data.result?.sessionId] *)
Definition body_session (data : Value) : Value :=
  opt_prop (opt_prop data "result") "sessionId".

(** C7 as the specification states it, for the exchange made last: when
    the response to the newest request of [w'] carries a token in its header,
    that token is the session in [w']. *)
Definition header_capture_as_stated (env : Env) (w' : World) : Prop :=
  forall req older res s,
    requests w' = req :: older ->
    upstream env (List.length older) req = Resolved res ->
    res_session res = Some s ->
    s <> "" ->
    upstreamSessionId w' = VStr s.

(** The state after [saveSessionToCache(sessionId)] *)
Definition adopt (env : Env) (sessionId : Value) (w : World) : World :=
  snd (saveSessionToCache env sessionId w).

(** The error of line 153 *)
Definition stream_ended : JsError :=
  new_Error (VStr "Upstream SSE stream ended without a result").

(** The requests, told apart by the method of their body *)
Definition is_initialize (r : Request) : bool :=
  rpc_method (req_body r) =? "initialize".

Definition is_notification (r : Request) : bool :=
  rpc_method (req_body r) =? "notifications/initialized".

Definition is_send (r : Request) : bool :=
  negb (is_initialize r) && negb (is_notification r).

(** How many [initialize] requests, how many forwarded requests *)
Definition handshakes (l : list Request) : nat :=
  List.length (filter is_initialize l).

Definition sends (l : list Request) : nat := List.length (filter is_send l).

(** The requests of [w'] that [w] does not have yet, newest first *)
Definition issued (w w' : World) : list Request :=
  firstn (List.length (requests w') - List.length (requests w)) (requests w').

Definition unsignalled (l : list Request) : Prop :=
  Forall (fun r => req_signal r = None) l.

(** At most [i] handshake requests and [s] forwarded requests *)
Definition within (i s : nat) (l : list Request) : Prop :=
  handshakes l <= i /\ sends l <= s.

(** [m] only adds requests, and what it adds satisfies [P] *)
Definition issues {A} (P : list Request -> Prop) (m : M A) : Prop :=
  forall w, exists new,
    requests (snd (m w)) = (new ++ requests w)%list /\ P new.

(** The same environment with another value of MCP_TIMEOUT_MS *)
Definition with_timeout (t : Z) (env : Env) : Env :=
  {| UPSTREAM_AUTH := UPSTREAM_AUTH env;
     TIMEOUT_MS := t;
     JSON_parse := JSON_parse env;
     Math_random_id := Math_random_id env;
     upstream := upstream env;
     writeFile_other := writeFile_other env |}.

(** What [fetchMcp] gave is a session error for [forwardToHttpMcp]: a thrown
    error that line 312 classifies so, or a document whose [error] member
    line 289 classifies so. *)
Definition session_error_outcome (r : Result Value) : Prop :=
  match r with
  | Throw e => isSessionError_thrown e = true
  | Return data =>
      truthy (opt_prop data "error") = true /\
      exists errMsg,
        lower_or_empty (opt_prop (opt_prop data "error") "message")
        = Return errMsg /\
        isSessionError_envelope errMsg (opt_prop data "error") = true
  end.

(** Every send of [method] returns a session error. *)
Definition every_send_fails (env : Env) (method : string) : Prop :=
  forall body w,
    rpc_method body = method ->
    session_error_outcome (fst (fetchMcp env body w)).

(** C1 as the specification states it *)
Definition retry_once_bound_as_stated (env : Env) (method : string)
  (params : Value) (w : World) : Prop :=
  every_send_fails env method ->
  let w' := snd (forwardToHttpMcp env method params w) in
  handshakes (issued w w') <= 2 /\ sends (issued w w') <= 2.

(** Every send of [method] throws a session error (a transport failure, as
    for a response with status 401 or 406). *)
Definition every_send_throws (env : Env) (method : string) : Prop :=
  forall body w,
    rpc_method body = method ->
    exists e, fst (fetchMcp env body w) = Throw e /\
              isSessionError_thrown e = true.

(** The call does not stop for lack of fuel. *)
Definition finishes (m : M (option Value)) : Prop :=
  forall w, fst (m w) <> Return None.

(** Two computations that do the same in every state *)
Definition same {A} (m1 m2 : M A) : Prop := forall w, m1 w = m2 w.

(** The body of [forwardToHttpMcp_fuel], with [retry p] for the recursive
    call on the parameters [p] *)
Definition forward_body (env : Env) (retry : Value -> M (option Value))
  (method : string) (params : Value) (retryCount : nat) : M (option Value) :=
  let params := match params with VUndefined => VObj [] | _ => params end in
  ensureUpstreamInitialized env ;;
  id <- Math_random env ;;
  try_catch
    (data <- fetchMcp env (requestBody id method params) ;;
     error <- lift (get_prop data "error") ;;
     if truthy error then
       errMsg <- lift (lower_or_empty (opt_prop error "message")) ;;
       if (retryCount <? 1)%nat && isSessionError_envelope errMsg error
       then forget_session ;; retry params
       else throw (error_of_envelope error)
     else ret (Some (opt_prop data "result")))
    (fun err =>
       if (retryCount <? 1)%nat && isSessionError_thrown err then
         forget_session ;; retry params
       else throw err).

(** The default of the parameter [params] *)
Definition params_or_empty (params : Value) : Value :=
  match params with VUndefined => VObj [] | _ => params end.

(** The request body of the forwarded call that starts in state [w] (after
    [ensureUpstreamInitialized]) *)
Definition send_body (env : Env) (method : string) (params : Value)
  (w : World) : RequestBody :=
  requestBody (Math_random_id env (random_calls w)) method
    (params_or_empty params).

(** The state in which a retry starts: lines 296-297 and 320-321 *)
Definition forgotten (w : World) : World :=
  set_session VNull (set_cache None (set_initialized false (set_session VNull w))).

(** The error the handshake throws for an [error] member: line 206 *)
Definition init_error (error : Value) : JsError :=
  new_Error (VStr ("Upstream Init error: " ++
                   js_String (opt_prop error "message"))).

Definition carries (T : string) (r : Request) : Prop :=
  req_session r = Some (VStr T).

Definition returned (r : Result (option Value)) : Prop :=
  exists v, r = Return (Some v).

(** C6 as the specification states it, for a token preloaded from the
    environment or from the cache file: no handshake, [N] sends *)
Definition preloaded_reuse_as_stated (env : Env)
  (MCP_SESSION_ID file : option string) (calls : list (string * Value))
  : Prop :=
  let w := startup MCP_SESSION_ID file in
  let w' := snd (forward_all env calls w) in
  handshakes (issued w w') = 0 /\ sends (issued w w') = List.length calls.

(** [m], started in a state that satisfies [P], leaves a state that satisfies
    [Q] whenever it returns. *)
Definition returns_in {A} (P : World -> Prop) (m : M A) (Q : World -> Prop)
  : Prop :=
  forall w a w', P w -> m w = (Return a, w') -> Q w'.

Definition anywhere : World -> Prop := fun _ => True.

Definition initialized : World -> Prop :=
  fun w => upstreamInitialized w = true.

(** The request that opens a handshake started in state [w] *)
Definition opening_request (env : Env) (w : World) : Request :=
  mk_request env (bump_random w)
    (initRequestBody (Math_random_id env (random_calls w))).

(** A string with no line feed in it *)
Fixpoint one_line (s : string) : bool :=
  match s with
  | EmptyString => true
  | String c r => negb (Ascii.eqb c newline) && one_line r
  end.

(** The lines [split] gave, put together again with a line feed after each *)
Fixpoint terminated (lines : list string) : string :=
  match lines with
  | [] => ""
  | l :: rest => l ++ String newline (terminated rest)
  end.

(** The Authorization header the configuration asks for *)
Definition configured_authorization (env : Env) : option string :=
  if UPSTREAM_AUTH env =? "" then None else Some (UPSTREAM_AUTH env).

(** What every request of the proxy looks like: the configured
    Authorization header, a session header that is never falsy, no signal *)
Definition well_formed_request (env : Env) (r : Request) : Prop :=
  req_authorization r = configured_authorization env
  /\ (forall v, req_session r = Some v -> truthy v = true).

(** [m], started in a state that satisfies [P], leaves the session
    initialized whenever it returns a value. *)
Definition returns_some (P : World -> Prop) (m : M (option Value)) : Prop :=
  forall w v w', P w -> m w = (Return (Some v), w') -> initialized w'.

(** [m] only adds requests on top of those already made. *)
Definition grows {A} (m : M A) : Prop := issues (fun _ => True) m.

(** The token the process starts with: MCP_SESSION_ID when it is set and not
    empty, else the trimmed content of the cache file when there is one and
    it is not blank *)
Definition startup_token (MCP_SESSION_ID file : option string)
  : option string :=
  match MCP_SESSION_ID with
  | Some s => if s =? "" then
                match file with
                | Some data => if trim data =? "" then None else Some (trim data)
                | None => None
                end
              else Some s
  | None =>
      match file with
      | Some data => if trim data =? "" then None else Some (trim data)
      | None => None
      end
  end.

(** A request that, if it is a forwarded one, has the method and the
    parameters of the call *)
Definition forwards_as (method : string) (params : Value) (r : Request)
  : Prop :=
  is_send r = true ->
  rpc_method (req_body r) = method
  /\ rpc_params (req_body r) = Some (params_or_empty params).

(** ** The sites that classify an error *)

(** The call went on with a new handshake after the failure seen in state
    [w2]: the request that follows those of [w2] is an [initialize] without
    a session header. *)
Definition retried (w2 w' : World) : Prop :=
  exists rest r,
    requests w' = (rest ++ r :: requests w2)%list
    /\ rpc_method (req_body r) = "initialize"
    /\ req_session r = None.

(** Line 239 *)
Definition handshake_rule (err : JsError) : Prop :=
  mentions (err_message err) "not initialized" \/
  mentions (err_message err) "session" \/
  err_status err = VNum 401 \/ err_status err = VNum 406.

(** Lines 289-292, for an [error] member and its message in lower case *)
Definition member_rule (error : Value) (errMsg : string) : Prop :=
  contains errMsg "not initialized" \/ contains errMsg "session" \/
  contains errMsg "expired" \/ opt_prop error "code" = VNum (-32000).

(** Lines 312-316 *)
Definition caught_rule (err : JsError) : Prop :=
  mentions (err_message err) "not initialized" \/
  mentions (err_message err) "session" \/
  mentions (err_message err) "expired" \/
  err_status err = VNum 401 \/ err_status err = VNum 406.

(** What the caller gets for an [error] member that is not retried: the
    message of line 301 *)
Definition member_message (error : Value) : string :=
  if truthy (opt_prop error "message")
  then js_String (opt_prop error "message")
  else "Unknown upstream error".

(** ** Upstreams that keep or assign a session *)

(** Every request gets a response. *)
Definition answered (env : Env) : Prop :=
  forall n req, exists res, upstream env n req = Resolved res.

(** [fetchMcp] returns a document without an [error] member and the session
    is [T] afterwards. *)
Definition goes_well (env : Env) (T : string) (body : RequestBody)
  (w : World) : Prop :=
  exists data w',
    fetchMcp env body w = (Return data, w')
    /\ get_prop data "error" = Return (opt_prop data "error")
    /\ truthy (opt_prop data "error") = false
    /\ upstreamSessionId w' = VStr T.

(** The upstream serves every request of the session [T] and leaves the
    session as it is. *)
Definition keeps (env : Env) (T : string) : Prop :=
  forall body w, upstreamSessionId w = VStr T -> goes_well env T body w.

(** The upstream answers every [initialize] by naming the session [T]. *)
Definition assigns (env : Env) (T : string) : Prop :=
  forall body w, rpc_method body = "initialize" -> goes_well env T body w.

(** C10 as the specification states it: a truthy [result.sessionId] of the
    returned document is the session afterwards, and the cache file holds it
    when it is not the token the call started with. *)
Definition body_session_as_stated (w w' : World) (data : Value) : Prop :=
  truthy (body_session data) = true ->
  upstreamSessionId w' = body_session data
  /\ (strict_eq (body_session data) (upstreamSessionId w) = false ->
      cache_file w' = Some (js_String (body_session data))).

(** A state from which the session [T] is reached: it holds [T] already, or
    it is not initialized and the upstream assigns [T] in the handshake. *)
Definition reaches (env : Env) (T : string) (w : World) : Prop :=
  upstreamSessionId w = VStr T
  \/ (upstreamInitialized w = false /\ assigns env T).

(** A request that carries [T] unless it is an [initialize] request *)
Definition carries_after_handshake (T : string) (r : Request) : Prop :=
  is_initialize r = false -> carries T r.

(** * Properties *)

(** ** Strings and values *)

Lemma startsWith_spec (s p : string) :
  startsWith s p = true <-> exists post, s = p ++ post.
Proof.
  unfold startsWith. revert s.
  induction p as [|c p IH]; intros s; simpl.
  - split; [intros _; now exists s | intros _; destruct s; reflexivity].
  - destruct s as [|d s]; simpl.
    + split; [discriminate | intros [post H]; discriminate].
    + destruct (ascii_dec c d) as [->|Hcd].
      * rewrite IH. split; intros [post H]; exists post.
        -- now rewrite H.
        -- now inversion H.
      * split; [discriminate |].
        intros [post H]. inversion H. congruence.
Qed.

Lemma includes_unfold (s sub : string) :
  includes s sub =
  startsWith s sub ||
  match s with
  | EmptyString => false
  | String _ r => includes r sub
  end.
Proof. destruct s; reflexivity. Qed.

Lemma includes_spec (s sub : string) :
  includes s sub = true <-> contains s sub.
Proof.
  split.
  - induction s as [|c s IH]; rewrite includes_unfold; intros H;
      apply orb_true_iff in H; destruct H as [H|H]; try discriminate.
    + apply startsWith_spec in H. destruct H as [post H].
      exists EmptyString, post. exact H.
    + apply startsWith_spec in H. destruct H as [post H].
      exists EmptyString, post. exact H.
    + destruct (IH H) as (pre & post & E).
      exists (String c pre), post. simpl. now rewrite E.
  - intros (pre & post & E). revert s E.
    induction pre as [|c pre IH]; intros s E; rewrite includes_unfold.
    + apply orb_true_iff. left. apply startsWith_spec. now exists post.
    + subst s. simpl (match _ with EmptyString => _ | String _ r => _ end).
      apply orb_true_iff. right. now apply IH.
Qed.

Lemma strict_eq_true (a b : Value) : strict_eq a b = true -> a = b.
Proof.
  destruct a, b; simpl; try discriminate; intros H; try reflexivity.
  - apply Bool.eqb_prop in H. now subst.
  - apply Z.eqb_eq in H. now subst.
  - apply String.eqb_eq in H. now subst.
Qed.

Lemma strict_eq_num (v : Value) (n : Z) :
  strict_eq v (VNum n) = true <-> v = VNum n.
Proof.
  split; [apply strict_eq_true |].
  intros ->. simpl. apply Z.eqb_refl.
Qed.

Lemma truthy_get_prop (v : Value) (k : string) :
  truthy v = true -> get_prop v k = Return (opt_prop v k).
Proof. destruct v; simpl; try discriminate; reflexivity. Qed.

(** ** C4: the classification of errors *)


(** C4 as stated fails: an error that only says [expired] is a session error
    for the stated rule and for a forwarded request, not for the handshake;
    an error member with the code -32000 and another message is a session
    error when read from the response, not once it has been thrown; and a
    thrown error with status 401 is a session error although the error
    member it was built from is not. *)
Lemma classification_differs_between_sites :
  let expired := new_Error (VStr "Token expired") in
  let bad_state := VObj [("code", VNum (-32000)); ("message", VStr "bad state")] in
  let unauthorized := mkError "denied" (VNum 401) VUndefined VUndefined in
  (SessionError_as_stated (err_message expired) (err_status expired)
     (err_code expired) = true /\
   isSessionError_thrown expired = true /\
   init_should_retry expired = false)
  /\
  (isSessionError_envelope "bad state" bad_state = true /\
   isSessionError_thrown (error_of_envelope bad_state) = false /\
   init_should_retry (error_of_envelope bad_state) = false)
  /\
  (isSessionError_thrown unauthorized = true /\
   isSessionError_envelope (toLowerCase (err_message unauthorized))
     (VObj [("message", VStr "denied")]) = false).
Proof. vm_compute. repeat split. Qed.

(** ** What a response does to the session *)

Arguments when : simpl never.
Arguments saveSessionToCache : simpl never.

Ltac run :=
  unfold bind, try_catch, lift, ret, throw, gets, modify in *.

Lemma truthy_opt_prop (v : Value) (k : string) :
  truthy (opt_prop v k) = true -> truthy v = true.
Proof. destruct v; simpl; try discriminate; reflexivity. Qed.

Lemma guarded_save (env : Env) (v : Value) (w : World) :
  when (truthy v) (saveSessionToCache env v) w = (Return tt, adopt env v w).
Proof.
  unfold when, adopt, saveSessionToCache, ret.
  destruct (truthy v); simpl; [| reflexivity].
  destruct (strict_eq v (upstreamSessionId w)); reflexivity.
Qed.

Lemma adopt_falsy (env : Env) (v : Value) (w : World) :
  truthy v = false -> adopt env v w = w.
Proof. unfold adopt, saveSessionToCache. now intros ->. Qed.

Lemma adopt_session (env : Env) (v : Value) (w : World) :
  truthy v = true -> upstreamSessionId (adopt env v w) = v.
Proof.
  unfold adopt, saveSessionToCache. intros ->. simpl.
  destruct (strict_eq v (upstreamSessionId w)) eqn:E; simpl; [| reflexivity].
  symmetry. now apply strict_eq_true.
Qed.

Lemma adopt_frame (env : Env) (v : Value) (w : World) :
  requests (adopt env v w) = requests w /\
  upstreamInitialized (adopt env v w) = upstreamInitialized w /\
  random_calls (adopt env v w) = random_calls w.
Proof.
  unfold adopt, saveSessionToCache.
  destruct (negb (truthy v) || strict_eq v (upstreamSessionId w));
    simpl; auto.
Qed.

Lemma adopt_string (env : Env) (s : string) (w : World) :
  s <> "" ->
  upstreamSessionId (adopt env (VStr s) w) = VStr s /\
  (upstreamSessionId w <> VStr s ->
   cache_file (adopt env (VStr s) w) = Some s).
Proof.
  intros Hs. split.
  - apply adopt_session. simpl. now apply negb_true_iff, String.eqb_neq.
  - intros Hne. unfold adopt, saveSessionToCache.
    assert (truthy (VStr s) = true) as ->
        by (simpl; now apply negb_true_iff, String.eqb_neq).
    destruct (strict_eq (VStr s) (upstreamSessionId w)) eqn:E; simpl.
    + apply strict_eq_true in E. congruence.
    + reflexivity.
Qed.

(** One line of a stream leaves the state alone unless it is the answer. *)
Lemma sse_line_spec (env : Env) (line : string) (w : World) :
  sse_line env line w = (Return None, w) \/
  exists data,
    sse_line env line w = (Return (Some data), adopt env (body_session data) w)
    /\ startsWith line "data: " = true
    /\ JSON_parse env (trim (slice 6 line)) = Return data
    /\ truthy (opt_prop data "result") || truthy (opt_prop data "error") = true.
Proof.
  unfold sse_line.
  destruct (startsWith line "data: ") eqn:Hp; [| now left].
  unfold bind, try_catch, lift.
  destruct (JSON_parse env (trim (slice 6 line))) as [data|e] eqn:Hj;
    [| now left].
  destruct data as [| |b|n|s|items|fields]; simpl;
    try (now left); try (unfold when; simpl; now left).
  rewrite guarded_save. unfold ret.
  destruct (truthy (assoc "result" fields) || truthy (assoc "error" fields))
    eqn:Ht.
  - right. exists (VObj fields). repeat split; auto.
  - left. rewrite adopt_falsy; [reflexivity |].
    apply orb_false_iff in Ht. destruct Ht as [Hr _].
    destruct (truthy (opt_prop (assoc "result" fields) "sessionId")) eqn:Hs;
      [| reflexivity].
    apply truthy_opt_prop in Hs. congruence.
Qed.

Lemma sse_lines_spec (env : Env) (lines : list string) (w : World) :
  sse_lines env lines w = (Return None, w) \/
  exists data,
    sse_lines env lines w
    = (Return (Some data), adopt env (body_session data) w)
    /\ truthy (opt_prop data "result") || truthy (opt_prop data "error") = true.
Proof.
  induction lines as [|line rest IH]; simpl; [now left |].
  unfold bind.
  destruct (sse_line_spec env line w) as [H | (data & H & _ & _ & Ht)];
    rewrite H.
  - exact IH.
  - right. exists data. split; [reflexivity | exact Ht].
Qed.

Lemma read_stream_spec (env : Env) (chunks : list string) (buffer : string)
  (w : World) :
  read_stream env chunks buffer w = (Throw stream_ended, w) \/
  exists data,
    read_stream env chunks buffer w
    = (Return data, adopt env (body_session data) w)
    /\ truthy (opt_prop data "result") || truthy (opt_prop data "error") = true.
Proof.
  revert buffer.
  induction chunks as [|value rest IH]; intros buffer; simpl; [now left |].
  destruct (pop (split_lines (buffer ++ value))) as [lines buffer'].
  unfold bind.
  destruct (sse_lines_spec env lines w) as [H | (data & H & Ht)]; rewrite H.
  - apply IH.
  - right. exists data. split; [reflexivity | exact Ht].
Qed.

(** A response is read in two steps: the token of the header is adopted,
    whatever the status and the body; then the body is read, and the token
    of the returned document, if it has one, is adopted. *)
Lemma read_response_spec (env : Env) (res : Response) (w : World) :
  let w1 := adopt env (header_value (res_session res)) w in
  (exists e, read_response env res w = (Throw e, w1)) \/
  (exists data,
      read_response env res w
      = (Return data, adopt env (body_session data) w1)
      /\ res_ok res = true).
Proof.
  intros w1. unfold read_response, bind.
  rewrite guarded_save. fold w1.
  destruct (res_ok res) eqn:Hok; simpl.
  2: { left. eexists. reflexivity. }
  destruct (includes _ "text/event-stream").
  - destruct (read_stream_spec env (res_chunks res) "" w1)
      as [H | (data & H & _)]; rewrite H.
    + left. eexists. reflexivity.
    + right. exists data. split; [reflexivity | reflexivity].
  - unfold lift.
    destruct (JSON_parse env (res_text res)) as [data|e].
    2: { left. eexists. reflexivity. }
    destruct data as [| |b|n|s|items|fields]; simpl;
      try (left; eexists; reflexivity).
    + right. exists (VBool b). split; reflexivity.
    + right. exists (VNum n). split; reflexivity.
    + right. exists (VStr s). split; reflexivity.
    + right. exists (VArr items). split; reflexivity.
    + rewrite guarded_save.
      right. exists (VObj fields). split; reflexivity.
Qed.

Lemma fetchMcp_unfold (env : Env) (body : RequestBody) (w : World) :
  fetchMcp env body w =
  match upstream env (length (requests w)) (mk_request env w body) with
  | Rejected e => (Throw e, push_request (mk_request env w body) w)
  | Resolved res =>
      read_response env res (push_request (mk_request env w body) w)
  end.
Proof.
  unfold fetchMcp, fetch, bind, gets.
  destruct (upstream env (length (requests w)) (mk_request env w body));
    reflexivity.
Qed.

Lemma adopt_cache (env : Env) (v : Value) (w : World) (s : string) :
  upstreamSessionId (adopt env v w) = VStr s ->
  upstreamSessionId w <> VStr s ->
  cache_file (adopt env v w) = Some s.
Proof.
  unfold adopt, saveSessionToCache.
  destruct (negb (truthy v) || strict_eq v (upstreamSessionId w)); simpl.
  - congruence.
  - intros -> _. reflexivity.
Qed.

Lemma adopt_same (env : Env) (s : string) (w : World) :
  upstreamSessionId w = VStr s -> adopt env (VStr s) w = w.
Proof.
  intros H. unfold adopt, saveSessionToCache. rewrite H. simpl.
  rewrite String.eqb_refl, orb_true_r. reflexivity.
Qed.

(** Two adoptions in a row, as [fetchMcp] makes them: a string that is the
    token at the end and was not the token at the start is in the file. *)
Lemma adopt_twice_cache (env : Env) (h v : Value) (w : World) (s : string) :
  upstreamSessionId (adopt env v (adopt env h w)) = VStr s ->
  upstreamSessionId w <> VStr s ->
  cache_file (adopt env v (adopt env h w)) = Some s.
Proof.
  intros Hend Hstart.
  destruct (strict_eq (VStr s) (upstreamSessionId (adopt env h w))) eqn:E.
  - apply strict_eq_true in E. symmetry in E.
    assert (adopt env v (adopt env h w) = adopt env h w) as ->.
    { unfold adopt at 1. unfold saveSessionToCache.
      destruct (negb (truthy v) ||
                strict_eq v (upstreamSessionId (adopt env h w))) eqn:C;
        [reflexivity |].
      unfold adopt at 1 in Hend. unfold saveSessionToCache in Hend.
      rewrite C in Hend. simpl in Hend. subst v.
      rewrite E in C. simpl in C.
      rewrite String.eqb_refl, orb_true_r in C. discriminate. }
    now apply adopt_cache.
  - apply adopt_cache; [exact Hend |].
    intros Heq. rewrite Heq in E. simpl in E.
    rewrite String.eqb_refl in E. discriminate.
Qed.

(** ** C7: the token of the response header *)

(** The response to the notification is dropped unread. *)
Lemma send_initialized_frame (env : Env) (w : World) :
  upstreamSessionId (snd (send_initialized env w)) = upstreamSessionId w
  /\ cache_file (snd (send_initialized env w)) = cache_file w
  /\ upstreamInitialized (snd (send_initialized env w)) = upstreamInitialized w.
Proof.
  unfold send_initialized, bind, gets, fetch, ret.
  destruct (upstream env _ _); repeat split.
Qed.

(** C7, as the code has it.  (1) Whatever the status, the content type and
    the body of a response that [fetchMcp] receives (the responses to
    [initialize], to its retry and to the forwarded requests), a non-empty
    mcp-session-id header is adopted as the session: when the call throws,
    and when it returns a document that carries no token of its own, the
    header's token is the session afterwards (a token in the returned
    document is adopted after it, see C10); and a token that differs from
    the one before the call is written to the cache file.  In particular a
    plain JSON body that is an [error] document leaves the header's token as
    the session.  (2) The response to the [notifications/initialized]
    request is not read: whatever its header holds, the session and the
    cache file are as before. *)
Theorem header_session_captured (env : Env) :
  (forall body w res s,
      upstream env (length (requests w)) (mk_request env w body)
      = Resolved res ->
      res_session res = Some s ->
      s <> "" ->
      upstreamSessionId (snd (fetchMcp env body w)) =
        match fst (fetchMcp env body w) with
        | Return data =>
            if truthy (body_session data) then body_session data else VStr s
        | Throw _ => VStr s
        end
      /\ (upstreamSessionId w <> VStr s ->
          upstreamSessionId (snd (fetchMcp env body w)) = VStr s ->
          cache_file (snd (fetchMcp env body w)) = Some s))
  /\
  (forall w,
      upstreamSessionId (snd (send_initialized env w)) = upstreamSessionId w
      /\ cache_file (snd (send_initialized env w)) = cache_file w).
Proof.
  split.
  - intros body w res s Hreply Hhdr Hs.
    rewrite fetchMcp_unfold, Hreply.
    set (w0 := push_request (mk_request env w body) w).
    pose proof (read_response_spec env res w0) as Hspec.
    rewrite Hhdr in Hspec. simpl in Hspec.
    destruct (adopt_string env s w0 Hs) as [Htok Hfile].
    destruct Hspec as [(e & H) | (data & H & _)]; rewrite H; simpl.
    + split; [exact Htok |].
      intros Hne _. apply Hfile. exact Hne.
    + split.
      * destruct (truthy (body_session data)) eqn:Hb.
        -- now apply adopt_session.
        -- rewrite adopt_falsy by exact Hb. exact Htok.
      * intros Hne Hend. apply adopt_twice_cache; [exact Hend | exact Hne].
  - intros w.
    destruct (send_initialized_frame env w) as (H1 & H2 & _). now split.
Qed.

(** An [error] document in a plain JSON body, with a new token in the
    header: the token replaces the old one, in memory and in the file. *)
Lemma header_session_captured_witness :
  let env :=
    Scenario.scripted
      [Scenario.json_reply 200 (Some "abc123")
         "{'jsonrpc':'2.0','id':'1','error':{'code':-32601,'message':'nope'}}"] in
  let body := requestBody "1" "tools/list" (VObj []) in
  let w := mkWorld true (VStr "old") (Some "old") [] 0 in
  upstreamSessionId (snd (fetchMcp env body w)) = VStr "abc123"
  /\ (upstreamSessionId w <> VStr "abc123" ->
      upstreamSessionId (snd (fetchMcp env body w)) = VStr "abc123" ->
      cache_file (snd (fetchMcp env body w)) = Some "abc123").
Proof.
  intros env body w.
  destruct (header_session_captured env) as (H & _).
  apply (H body w
           {| res_status := 200;
              res_session := Some "abc123";
              res_content_type := Some "application/json";
              res_chunks :=
                [Scenario.txt
                   "{'jsonrpc':'2.0','id':'1','error':{'code':-32601,'message':'nope'}}"] |}
           "abc123").
  - reflexivity.
  - reflexivity.
  - discriminate.
Defined.

(** C7 as stated fails for the response to the notification: the handshake
    adopts the token [s1] of the response to [initialize]; the response to
    [notifications/initialized] carries the token [rotated], and the session
    is [s1] still, in memory and in the file. *)
Lemma notification_header_is_ignored :
  let env :=
    Scenario.scripted
      [Scenario.json_reply 200 (Some "s1") "{'jsonrpc':'2.0','id':'i','result':{}}";
       Scenario.json_reply 202 (Some "rotated") ""] in
  let w' := snd (ensureUpstreamInitialized env (startup None None)) in
  fst (ensureUpstreamInitialized env (startup None None)) = Return tt
  /\ Scenario.methods_of w' = ["initialize"; "notifications/initialized"]%list
  /\ upstreamSessionId w' = VStr "s1"
  /\ cache_file w' = Some "s1"
  /\ ~ header_capture_as_stated env w'.
Proof.
  intros env w'.
  split; [vm_compute; reflexivity |].
  split; [vm_compute; reflexivity |].
  split; [vm_compute; reflexivity |].
  split; [vm_compute; reflexivity |].
  intros H.
  pose (req := hd (mkRequest None None (mkBody None "" None) None)
                 (requests w')).
  pose (res := {| res_status := 202;
                  res_session := Some "rotated";
                  res_content_type := Some "application/json";
                  res_chunks := [Scenario.txt ""] |}).
  assert (E : upstreamSessionId w' = VStr "rotated").
  { apply (H req (tl (requests w')) res "rotated").
    - vm_compute. reflexivity.
    - vm_compute. reflexivity.
    - reflexivity.
    - discriminate. }
  vm_compute in E. discriminate.
Qed.


(** ** Accounting for the requests *)

Lemma issues_weaken {A} (P Q : list Request -> Prop) (m : M A) :
  (forall l, P l -> Q l) -> issues P m -> issues Q m.
Proof.
  intros HPQ Hm w. destruct (Hm w) as (new & E & HP).
  exists new. auto.
Qed.

Lemma issues_bind {A B} (P1 P2 P3 : list Request -> Prop)
  (m : M A) (k : A -> M B) :
  (forall a b, P1 a -> P2 b -> P3 (b ++ a)%list) ->
  (forall a, P1 a -> P3 a) ->
  issues P1 m -> (forall x, issues P2 (k x)) -> issues P3 (bind m k).
Proof.
  intros Happ Hone Hm Hk w. unfold bind.
  destruct (Hm w) as (new1 & E1 & HP1).
  destruct (m w) as [[x|e] w1]; simpl in *.
  - destruct (Hk x w1) as (new2 & E2 & HP2).
    exists (new2 ++ new1)%list. split.
    + rewrite E2, E1. apply app_assoc.
    + now apply Happ.
  - exists new1. auto.
Qed.

Lemma issues_try_catch {A} (P1 P2 P3 : list Request -> Prop)
  (m : M A) (h : JsError -> M A) :
  (forall a b, P1 a -> P2 b -> P3 (b ++ a)%list) ->
  (forall a, P1 a -> P3 a) ->
  issues P1 m -> (forall e, issues P2 (h e)) -> issues P3 (try_catch m h).
Proof.
  intros Happ Hone Hm Hh w. unfold try_catch.
  destruct (Hm w) as (new1 & E1 & HP1).
  destruct (m w) as [[x|e] w1]; simpl in *.
  - exists new1. auto.
  - destruct (Hh e w1) as (new2 & E2 & HP2).
    exists (new2 ++ new1)%list. split.
    + rewrite E2, E1. apply app_assoc.
    + now apply Happ.
Qed.

Lemma issues_silent {A} (P : list Request -> Prop) (m : M A) :
  P [] -> (forall w, requests (snd (m w)) = requests w) -> issues P m.
Proof. intros HP Hm w. exists []. split; [apply Hm | exact HP]. Qed.

Lemma read_response_requests (env : Env) (res : Response) (w : World) :
  requests (snd (read_response env res w)) = requests w.
Proof.
  destruct (read_response_spec env res w) as [(e & H) | (data & H & _)];
    rewrite H; simpl.
  - apply adopt_frame.
  - destruct (adopt_frame env (body_session data)
                (adopt env (header_value (res_session res)) w)) as [-> _].
    apply adopt_frame.
Qed.

Lemma fetchMcp_requests (env : Env) (body : RequestBody) (w : World) :
  requests (snd (fetchMcp env body w)) = mk_request env w body :: requests w.
Proof.
  rewrite fetchMcp_unfold.
  destruct (upstream env (length (requests w)) (mk_request env w body));
    [reflexivity |].
  now rewrite read_response_requests.
Qed.

Lemma fetchMcp_issues (env : Env) (P : list Request -> Prop)
  (body : RequestBody) :
  (forall w, P [mk_request env w body]) -> issues P (fetchMcp env body).
Proof.
  intros HP w. exists [mk_request env w body]. split; [| apply HP].
  apply fetchMcp_requests.
Qed.

Lemma send_initialized_issues (env : Env) (P : list Request -> Prop) :
  (forall w, P [mk_request env w initializedNotification]) ->
  issues P (send_initialized env).
Proof.
  intros HP w. exists [mk_request env w initializedNotification].
  split; [| apply HP].
  unfold send_initialized, bind, gets, fetch, ret.
  destruct (upstream env _ _); reflexivity.
Qed.

(** The bounds are proved once, for a family [B i s] of properties of the
    requests added, of which [within i s] and [unsignalled] are instances. *)
Section Accounting.

Variable env : Env.
Variable method : string.
Variable B : nat -> nat -> list Request -> Prop.

Hypothesis B_nil : B 0 0 [].
Hypothesis B_app :
  forall i s i' s' a b, B i s a -> B i' s' b -> B (i + i') (s + s') (b ++ a)%list.
Hypothesis B_mono :
  forall i s i' s' a, i <= i' -> s <= s' -> B i s a -> B i' s' a.
Hypothesis B_initialize :
  forall w suffix, B 1 0 [mk_request env w (initRequestBody suffix)].
Hypothesis B_notification :
  forall w, B 0 0 [mk_request env w initializedNotification].
Hypothesis B_send :
  forall w id params, B 0 1 [mk_request env w (requestBody id method params)].

Lemma B_seq {A C} (i s i' s' : nat) (m : M A) (k : A -> M C) :
  issues (B i s) m -> (forall x, issues (B i' s') (k x)) ->
  issues (B (i + i') (s + s')) (bind m k).
Proof.
  apply issues_bind.
  - intros a b. apply B_app.
  - intros a. apply B_mono; lia.
Qed.

Lemma B_catch {A} (i s i' s' : nat) (m : M A) (h : JsError -> M A) :
  issues (B i s) m -> (forall e, issues (B i' s') (h e)) ->
  issues (B (i + i') (s + s')) (try_catch m h).
Proof.
  apply issues_try_catch.
  - intros a b. apply B_app.
  - intros a. apply B_mono; lia.
Qed.

Lemma B_silent {A} (m : M A) :
  (forall w, requests (snd (m w)) = requests w) -> issues (B 0 0) m.
Proof. apply issues_silent. exact B_nil. Qed.

Lemma B_le {A} (i s i' s' : nat) (m : M A) :
  i <= i' -> s <= s' -> issues (B i s) m -> issues (B i' s') m.
Proof. intros Hi Hs. apply issues_weaken. intros l. now apply B_mono. Qed.

Lemma init_tail_issues :
  issues (B 0 0) (send_initialized env ;; modify (set_initialized true)).
Proof.
  apply (B_seq 0 0 0 0).
  - apply send_initialized_issues. exact B_notification.
  - intros _. now apply B_silent.
Qed.

Lemma init_attempt_issues (suffix : string) :
  issues (B 1 0) (init_attempt env (initRequestBody suffix)).
Proof.
  unfold init_attempt.
  apply (B_seq 1 0 0 0); [apply fetchMcp_issues; intros w; apply B_initialize |].
  intros data. unfold init_after_response.
  apply (B_seq 0 0 0 0); [now apply B_silent |].
  intros error. destruct (truthy error).
  - apply (B_seq 0 0 0 0); [now apply B_silent |].
    intros errMsg. destruct (_ || _); now apply B_silent.
  - apply init_tail_issues.
Qed.

Lemma init_recover_issues (suffix : string) (err : JsError) :
  issues (B 1 0) (init_recover env (initRequestBody suffix) err).
Proof.
  unfold init_recover.
  destruct (includes _ "already initialized");
    [apply (B_le 0 0); [lia | lia | now apply B_silent] |].
  destruct (init_should_retry err);
    [| apply (B_le 0 0); [lia | lia | now apply B_silent]].
  apply (B_seq 0 0 1 0); [now apply B_silent |].
  intros _.
  apply (B_seq 1 0 0 0); [apply fetchMcp_issues; intros w; apply B_initialize |].
  intros retryData.
  apply (B_seq 0 0 0 0); [now apply B_silent |].
  intros error. destruct (truthy error).
  - now apply B_silent.
  - apply init_tail_issues.
Qed.

(** One call of [ensureUpstreamInitialized]: at most two [initialize]
    requests, no forwarded request *)
Lemma ensure_issues : issues (B 2 0) (ensureUpstreamInitialized env).
Proof.
  unfold ensureUpstreamInitialized.
  apply (B_seq 0 0 2 0); [now apply B_silent |].
  intros initialized. destruct initialized.
  - apply (B_le 0 0); [lia | lia | now apply B_silent].
  - apply (B_seq 0 0 2 0); [now apply B_silent |].
    intros suffix.
    apply (B_catch 1 0 1 0).
    + apply init_attempt_issues.
    + intros e. apply init_recover_issues.
Qed.

Lemma forget_session_issues : issues (B 0 0) forget_session.
Proof. now apply B_silent. Qed.

(** A call that may not retry: one handshake, one forwarded request *)
Lemma forward_last_issues (fuel : nat) (params : Value) (retryCount : nat) :
  1 <= retryCount ->
  issues (B 2 1) (forwardToHttpMcp_fuel env fuel method params retryCount).
Proof.
  intros Hrc.
  destruct fuel as [|fuel']; simpl.
  - apply (B_le 0 0); [lia | lia | now apply B_silent].
  - assert ((retryCount <? 1)%nat = false) as -> by now apply Nat.ltb_ge.
    simpl.
    apply (B_seq 2 0 0 1); [apply ensure_issues |]. intros _.
    apply (B_seq 0 0 0 1); [now apply B_silent |]. intros id.
    apply (B_catch 0 1 0 0).
    + apply (B_seq 0 1 0 0); [apply fetchMcp_issues; intros w; apply B_send |].
      intros data.
      apply (B_seq 0 0 0 0); [now apply B_silent |].
      intros error. destruct (truthy error).
      * apply (B_seq 0 0 0 0); [now apply B_silent |].
        intros errMsg. now apply B_silent.
      * now apply B_silent.
    + intros e. now apply B_silent.
Qed.

Lemma retry_issues (fuel : nat) (params : Value) (retryCount : nat) :
  issues (B 2 1)
    (forget_session ;;
     forwardToHttpMcp_fuel env fuel method params (retryCount + 1)).
Proof.
  apply (B_seq 0 0 2 1); [apply forget_session_issues |].
  intros _. apply forward_last_issues. lia.
Qed.

(** Any call: at most three attempts, each with one handshake *)
Lemma forward_issues (fuel : nat) (params : Value) (retryCount : nat) :
  issues (B 6 3) (forwardToHttpMcp_fuel env fuel method params retryCount).
Proof.
  destruct fuel as [|fuel']; simpl.
  - apply (B_le 0 0); [lia | lia | now apply B_silent].
  - apply (B_seq 2 0 4 3); [apply ensure_issues |]. intros _.
    apply (B_seq 0 0 4 3); [now apply B_silent |]. intros id.
    apply (B_catch 2 2 2 1).
    + apply (B_seq 0 1 2 1); [apply fetchMcp_issues; intros w; apply B_send |].
      intros data.
      apply (B_seq 0 0 2 1); [now apply B_silent |].
      intros error. destruct (truthy error).
      * apply (B_seq 0 0 2 1); [now apply B_silent |].
        intros errMsg. destruct (_ && _).
        -- apply retry_issues.
        -- apply (B_le 0 0); [lia | lia | now apply B_silent].
      * apply (B_le 0 0); [lia | lia | now apply B_silent].
    + intros e. destruct (_ && _).
      * apply retry_issues.
      * apply (B_le 0 0); [lia | lia | now apply B_silent].
Qed.

End Accounting.

Lemma handshakes_app (a b : list Request) :
  handshakes (a ++ b)%list = handshakes a + handshakes b.
Proof. unfold handshakes. now rewrite filter_app, length_app. Qed.

Lemma sends_app (a b : list Request) :
  sends (a ++ b)%list = sends a + sends b.
Proof. unfold sends. now rewrite filter_app, length_app. Qed.

Lemma issued_app (w w' : World) (new : list Request) :
  requests w' = (new ++ requests w)%list -> issued w w' = new.
Proof.
  intros E. unfold issued. rewrite E, length_app.
  replace (length new + length (requests w) - length (requests w))
    with (length new + 0) by lia.
  rewrite firstn_app_2. simpl. apply app_nil_r.
Qed.

Lemma within_app (i s i' s' : nat) (a b : list Request) :
  within i s a -> within i' s' b -> within (i + i') (s + s') (b ++ a)%list.
Proof.
  unfold within. rewrite handshakes_app, sends_app. lia.
Qed.

Lemma within_mono (i s i' s' : nat) (a : list Request) :
  i <= i' -> s <= s' -> within i s a -> within i' s' a.
Proof. unfold within. lia. Qed.

Lemma forwarded_method_kind (method : string) :
  In method forwarded_methods ->
  (method =? "initialize") = false /\
  (method =? "notifications/initialized") = false.
Proof.
  unfold forwarded_methods. simpl.
  intros H. repeat (destruct H as [H|H]; [subst; split; reflexivity |]).
  contradiction.
Qed.

Ltac within_one :=
  unfold within, handshakes, sends, is_send, is_initialize, is_notification;
  simpl; lia.

Section Counting.

Variable env : Env.
Variable method : string.
Hypothesis method_forwarded : In method forwarded_methods.

Lemma ensure_within : issues (within 2 0) (ensureUpstreamInitialized env).
Proof.
  apply (ensure_issues env within).
  - within_one.
  - apply within_app.
  - apply within_mono.
  - intros w suffix. within_one.
  - intros w. within_one.
Qed.

Lemma send_within (w : World) (id : string) (params : Value) :
  within 0 1 [mk_request env w (requestBody id method params)].
Proof.
  destruct (forwarded_method_kind method method_forwarded) as [Hi Hn].
  unfold within, handshakes, sends, is_send, is_initialize, is_notification.
  simpl. rewrite Hi, Hn. simpl. lia.
Qed.

Lemma forward_last_within (fuel : nat) (params : Value) (retryCount : nat) :
  1 <= retryCount ->
  issues (within 2 1) (forwardToHttpMcp_fuel env fuel method params retryCount).
Proof.
  apply (forward_last_issues env method within).
  - within_one.
  - apply within_app.
  - apply within_mono.
  - intros w suffix. within_one.
  - intros w. within_one.
  - apply send_within.
Qed.

(** Whatever the upstream does, one call issues at most six [initialize]
    requests and three forwarded requests. *)
Lemma forward_within (fuel : nat) (params : Value) (retryCount : nat) :
  issues (within 6 3) (forwardToHttpMcp_fuel env fuel method params retryCount).
Proof.
  apply (forward_issues env method within).
  - within_one.
  - apply within_app.
  - apply within_mono.
  - intros w suffix. within_one.
  - intros w. within_one.
  - apply send_within.
Qed.

End Counting.

(** ** C2: the timeout *)

(** C2, as the code has it.  No request of a forwarded call (handshake,
    notification or forwarded request) is given an abort signal, and the
    call is the same function of the state whatever the value of
    MCP_TIMEOUT_MS: nothing bounds the time an exchange takes. *)
Theorem timeout_never_applied (env : Env) (method : string) (params : Value) :
  issues unsignalled (forwardToHttpMcp env method params)
  /\ forall t w,
       forwardToHttpMcp (with_timeout t env) method params w
       = forwardToHttpMcp env method params w.
Proof.
  split.
  - apply (forward_issues env method (fun _ _ => unsignalled)).
    + constructor.
    + intros _ _ _ _ a b Ha Hb. apply Forall_app. now split.
    + intros _ _ _ _ a _ _ Ha. exact Ha.
    + intros w suffix. repeat constructor.
    + intros w. repeat constructor.
    + intros w id p. repeat constructor.
  - intros t w. reflexivity.
Qed.

(** ** C1: the retry budget *)

Lemma finishes_bind {A} (m : M A) (k : A -> M (option Value)) :
  (forall x, finishes (k x)) -> finishes (bind m k).
Proof.
  intros Hk w. unfold bind.
  destruct (m w) as [[x|e] w1]; [apply Hk | discriminate].
Qed.

Lemma finishes_try_catch (m : M (option Value))
  (h : JsError -> M (option Value)) :
  finishes m -> (forall e, finishes (h e)) -> finishes (try_catch m h).
Proof.
  intros Hm Hh w. unfold try_catch.
  specialize (Hm w).
  destruct (m w) as [[x|e] w1]; [exact Hm | apply Hh].
Qed.

(** Two units of fuel are enough for a call that starts at [retryCount] 0,
    one for a call that starts higher: the call returns a value or throws. *)
Lemma forwardToHttpMcp_fuel_total (env : Env) (fuel : nat) (method : string)
  (params : Value) (retryCount : nat) :
  2 <= fuel + retryCount ->
  1 <= fuel ->
  finishes (forwardToHttpMcp_fuel env fuel method params retryCount).
Proof.
  revert params retryCount.
  induction fuel as [|fuel' IH]; intros params retryCount Hsum Hpos; [lia |].
  simpl.
  assert (Hrec : forall p,
             (retryCount <? 1)%nat = true ->
             finishes (forget_session ;;
                       forwardToHttpMcp_fuel env fuel' method p
                         (retryCount + 1))).
  { intros p Hlt. apply Nat.ltb_lt in Hlt.
    apply finishes_bind. intros _. apply IH; lia. }
  apply finishes_bind. intros _.
  apply finishes_bind. intros id.
  apply finishes_try_catch.
  - apply finishes_bind. intros data.
    apply finishes_bind. intros error.
    destruct (truthy error).
    + apply finishes_bind. intros errMsg.
      destruct (retryCount <? 1)%nat eqn:Hlt; simpl.
      * destruct (isSessionError_envelope errMsg error);
          [now apply Hrec | intros w; discriminate].
      * intros w; discriminate.
    + intros w; discriminate.
  - intros e.
    destruct (retryCount <? 1)%nat eqn:Hlt; simpl.
    + destruct (isSessionError_thrown e);
        [now apply Hrec | intros w; discriminate].
    + intros w; discriminate.
Qed.

Lemma forwardToHttpMcp_finishes (env : Env) (method : string)
  (params : Value) :
  finishes (forwardToHttpMcp env method params).
Proof. apply forwardToHttpMcp_fuel_total; lia. Qed.

Lemma same_bind {A B} (m : M A) (k1 k2 : A -> M B) :
  (forall x, same (k1 x) (k2 x)) -> same (bind m k1) (bind m k2).
Proof.
  intros Hk w. unfold bind. destruct (m w) as [[x|e] w1]; [apply Hk | reflexivity].
Qed.

Lemma same_try_catch {A} (m1 m2 : M A) (h1 h2 : JsError -> M A) :
  same m1 m2 -> (forall e, same (h1 e) (h2 e)) ->
  same (try_catch m1 h1) (try_catch m2 h2).
Proof.
  intros Hm Hh w. unfold try_catch. rewrite (Hm w).
  destruct (m2 w) as [[x|e] w1]; [reflexivity | apply Hh].
Qed.

Lemma forward_unfold (env : Env) (fuel : nat) (method : string)
  (params : Value) (retryCount : nat) :
  forwardToHttpMcp_fuel env (S fuel) method params retryCount
  = forward_body env
      (fun p => forwardToHttpMcp_fuel env fuel method p (retryCount + 1))
      method params retryCount.
Proof. reflexivity. Qed.

Lemma forward_body_same (env : Env) (retry1 retry2 : Value -> M (option Value))
  (method : string) (params : Value) (retryCount : nat) :
  ((retryCount <? 1)%nat = true -> forall p, same (retry1 p) (retry2 p)) ->
  same (forward_body env retry1 method params retryCount)
       (forward_body env retry2 method params retryCount).
Proof.
  intros Hretry. unfold forward_body.
  apply same_bind. intros _.
  apply same_bind. intros id.
  apply same_try_catch.
  - apply same_bind. intros data.
    apply same_bind. intros error.
    destruct (truthy error); [| intros w; reflexivity].
    apply same_bind. intros errMsg.
    destruct (retryCount <? 1)%nat eqn:Hlt; simpl; [| intros w; reflexivity].
    destruct (isSessionError_envelope errMsg error); [| intros w; reflexivity].
    apply same_bind. intros _. now apply Hretry.
  - intros e.
    destruct (retryCount <? 1)%nat eqn:Hlt; simpl; [| intros w; reflexivity].
    destruct (isSessionError_thrown e); [| intros w; reflexivity].
    apply same_bind. intros _. now apply Hretry.
Qed.

(** More fuel than that changes nothing. *)
Lemma forwardToHttpMcp_fuel_stable (env : Env) (fuel : nat) (method : string)
  (params : Value) (retryCount : nat) :
  2 <= fuel + retryCount ->
  1 <= fuel ->
  same (forwardToHttpMcp_fuel env (S fuel) method params retryCount)
       (forwardToHttpMcp_fuel env fuel method params retryCount).
Proof.
  revert params retryCount.
  induction fuel as [|fuel' IH]; intros params retryCount Hsum Hpos; [lia |].
  rewrite (forward_unfold env (S fuel')), (forward_unfold env fuel').
  apply forward_body_same.
  intros Hlt p. apply Nat.ltb_lt in Hlt. apply IH; lia.
Qed.

(** A call that may not retry, against sends that all throw, throws. *)
Lemma forward_last_throws (env : Env) (fuel : nat) (method : string)
  (params : Value) (retryCount : nat) (w : World) :
  every_send_throws env method ->
  1 <= retryCount ->
  exists e,
    fst (forwardToHttpMcp_fuel env (S fuel) method params retryCount w)
    = Throw e.
Proof.
  intros Hsend Hrc. simpl.
  assert ((retryCount <? 1)%nat = false) as -> by now apply Nat.ltb_ge.
  simpl. unfold bind at 1.
  destruct (ensureUpstreamInitialized env w) as [[[]|e] w1];
    [| eexists; reflexivity].
  unfold bind at 1. unfold Math_random at 1.
  unfold try_catch. unfold bind at 1.
  set (body := requestBody _ method _).
  destruct (Hsend body (bump_random w1) eq_refl) as (e & He & _).
  destruct (fetchMcp env body (bump_random w1)) as [r w2].
  simpl in He. subst r. eexists. reflexivity.
Qed.

(** C1, as the code has it by design.  If every send of a forwarded method
    throws a session error (the transport's failure, as for status 401 or
    406), one call issues at most two forwarded requests and at most four
    [initialize] requests (two calls of [ensureUpstreamInitialized], each with
    its own retry), and then throws: the second failure reaches the caller. *)
Theorem retry_once_bound (env : Env) (method : string) (params : Value)
  (w : World) :
  In method forwarded_methods ->
  every_send_throws env method ->
  exists new e w',
    forwardToHttpMcp env method params w = (Throw e, w')
    /\ requests w' = (new ++ requests w)%list
    /\ handshakes new <= 4
    /\ sends new <= 2.
Proof.
  intros Hm Hsend.
  unfold forwardToHttpMcp. rewrite forward_unfold. unfold forward_body.
  set (p := match params with VUndefined => VObj [] | _ => params end).
  unfold bind at 1.
  destruct (ensure_within env w) as (new1 & E1 & H1i & H1s).
  destruct (ensureUpstreamInitialized env w) as [[[]|e] w1]; simpl in E1.
  2: { exists new1, e, w1. repeat split; try lia; exact E1. }
  unfold bind at 1. unfold Math_random at 1.
  unfold try_catch. unfold bind at 1.
  set (body := requestBody _ method p).
  destruct (Hsend body (bump_random w1) eq_refl) as (e & He & Hsess).
  pose proof (fetchMcp_requests env body (bump_random w1)) as E2.
  destruct (fetchMcp env body (bump_random w1)) as [r w2].
  simpl in He, E2. subst r.
  rewrite Hsess. change ((0 <? 1)%nat && true) with true. cbv iota.
  unfold bind at 1. unfold forget_session at 1.
  unfold bind at 1, clearSessionCache, modify. cbv beta iota.
  set (w3 := set_session VNull _).
  destruct (forward_last_within env method Hm 1 p (0 + 1) (le_n 1) w3)
    as (new3 & E3 & H3i & H3s).
  destruct (forward_last_throws env 0 method p (0 + 1) w3 Hsend (le_n 1))
    as (e' & He').
  destruct (forwardToHttpMcp_fuel env 1 method p (0 + 1) w3) as [r w4].
  simpl in E3, He'. subst r.
  exists (new3 ++ mk_request env (bump_random w1) body :: new1)%list, e', w4.
  pose proof (send_within env method Hm (bump_random w1)
                (Math_random_id env (random_calls w1)) p) as [Hi Hs].
  fold body in Hi, Hs.
  split; [reflexivity | split; [| split]].
  - rewrite E3. subst w3. simpl requests. rewrite E2. simpl requests.
    rewrite E1. rewrite <- app_assoc. reflexivity.
  - rewrite handshakes_app.
    change (mk_request env (bump_random w1) body :: new1)
      with ([mk_request env (bump_random w1) body] ++ new1)%list.
    rewrite handshakes_app. lia.
  - rewrite sends_app.
    change (mk_request env (bump_random w1) body :: new1)
      with ([mk_request env (bump_random w1) body] ++ new1)%list.
    rewrite sends_app. lia.
Qed.

Lemma unauthorized_sends_throw :
  every_send_throws Upstreams.unauthorized "tools/call".
Proof.
  intros [id m params] w Hm. simpl in Hm. subst m.
  eexists. split; vm_compute; reflexivity.
Qed.

(** Against an upstream that answers 401 to every forwarded request and to
    the first [initialize] of every handshake: four [initialize] requests,
    two forwarded requests, and the caller gets the second 401. *)
Lemma retry_once_bound_witness :
  let env := Upstreams.unauthorized in
  let w := startup None None in
  exists new e w',
    forwardToHttpMcp env "tools/call" (VObj []) w = (Throw e, w')
    /\ requests w' = (new ++ requests w)%list
    /\ handshakes new <= 4
    /\ sends new <= 2.
Proof.
  intros env w.
  apply (retry_once_bound env "tools/call" (VObj []) w).
  - simpl. auto.
  - exact unauthorized_sends_throw.
Defined.

(** C1 as stated fails twice.  With an upstream that answers 401 to every
    forwarded request and to the first [initialize] of every handshake, a
    call issues four [initialize] requests.  With an upstream that answers
    every forwarded request by an [error] member whose message names the
    session, a call issues three forwarded requests: what the retried call
    throws is caught by the [catch] of the first call, which retries again. *)
Lemma retry_once_bound_fails :
  ~ retry_once_bound_as_stated Upstreams.unauthorized "tools/call" (VObj [])
      (startup None None)
  /\ ~ retry_once_bound_as_stated Upstreams.always_expired "tools/call"
         (VObj []) (startup None None).
Proof.
  split; intros H.
  - assert (every_send_fails Upstreams.unauthorized "tools/call") as Hf.
    { intros body w Hm.
      destruct (unauthorized_sends_throw body w Hm) as (e & -> & He).
      exact He. }
    specialize (H Hf). vm_compute in H. destruct H as [H _].
    repeat apply le_S_n in H. inversion H.
  - assert (every_send_fails Upstreams.always_expired "tools/call") as Hf.
    { intros [id m params] w Hm. simpl in Hm. subst m.
      vm_compute. split; [reflexivity |].
      eexists. split; reflexivity. }
    specialize (H Hf). vm_compute in H. destruct H as [_ H].
    repeat apply le_S_n in H. inversion H.
Qed.

(** The two runs against these upstreams, request by request *)
Lemma retry_once_bound_runs :
  let run env :=
    Scenario.methods_of
      (snd (forwardToHttpMcp env "tools/call" (VObj []) (startup None None))) in
  run Upstreams.unauthorized
  = ["initialize"; "initialize"; "notifications/initialized"; "tools/call";
     "initialize"; "initialize"; "notifications/initialized"; "tools/call"]
  /\ run Upstreams.always_expired
     = ["initialize"; "notifications/initialized"; "tools/call";
        "initialize"; "notifications/initialized"; "tools/call";
        "initialize"; "notifications/initialized"; "tools/call"].
Proof. vm_compute. split; reflexivity. Qed.

(** ** C3 and C8: reading an event stream *)

(** A record whose document has neither a truthy [result] nor a truthy
    [error] is passed over. *)
Lemma sse_line_not_an_answer (env : Env) (line : string) (w : World)
  (fields : list (string * Value)) :
  JSON_parse env (trim (slice 6 line)) = Return (VObj fields) ->
  truthy (assoc "result" fields) = false ->
  truthy (assoc "error" fields) = false ->
  sse_line env line w = (Return None, w).
Proof.
  intros Hj Hr He.
  destruct (sse_line_spec env line w) as [H | (data & _ & _ & Hj' & Ht)];
    [exact H |].
  rewrite Hj in Hj'. inversion Hj'; subst data. simpl in Ht.
  rewrite Hr, He in Ht. discriminate.
Qed.

(** The first record whose document has a truthy [result] or [error] is
    returned, and the lines after it are not read. *)
Lemma sse_lines_answer (env : Env) (line : string) (rest : list string)
  (w : World) (fields : list (string * Value)) :
  startsWith line "data: " = true ->
  JSON_parse env (trim (slice 6 line)) = Return (VObj fields) ->
  truthy (assoc "result" fields) || truthy (assoc "error" fields) = true ->
  sse_lines env (line :: rest) w
  = (Return (Some (VObj fields)),
     adopt env (body_session (VObj fields)) w).
Proof.
  intros Hp Hj Ht. simpl. unfold bind, sse_line.
  rewrite Hp. unfold try_catch, bind, lift. rewrite Hj. simpl.
  rewrite guarded_save. rewrite Ht. reflexivity.
Qed.

(** C3, on the code.  A stream whose only record is a response with the
    result [null], 0, [false] or the empty string is not answered with that
    record: [fetchMcp] throws the error of a stream that ended without a
    result.  The same documents are returned when they come as a plain JSON
    body, and [forwardToHttpMcp] then returns their result. *)
Theorem stream_drops_falsy_result :
  let body := requestBody "1" "tools/call" (VObj []) in
  let w := mkWorld true (VStr "T") (Some "T") [] 0 in
  let streamed doc :=
    fst (fetchMcp
           (Scenario.scripted
              [Scenario.stream_reply None ["data: " ++ doc ++ "$$"]])
           body w) in
  let plain doc :=
    fst (forwardToHttpMcp
           (Scenario.scripted [Scenario.json_reply 200 None doc])
           "tools/call" (VObj []) w) in
  (streamed "{'jsonrpc':'2.0','id':'1','result':null}" = Throw stream_ended
   /\ streamed "{'jsonrpc':'2.0','id':'1','result':0}" = Throw stream_ended
   /\ streamed "{'jsonrpc':'2.0','id':'1','result':false}" = Throw stream_ended
   /\ streamed "{'jsonrpc':'2.0','id':'1','result':''}" = Throw stream_ended)
  /\
  (plain "{'jsonrpc':'2.0','id':'1','result':null}" = Return (Some VNull)
   /\ plain "{'jsonrpc':'2.0','id':'1','result':0}" = Return (Some (VNum 0))
   /\ plain "{'jsonrpc':'2.0','id':'1','result':false}"
      = Return (Some (VBool false))
   /\ plain "{'jsonrpc':'2.0','id':'1','result':''}" = Return (Some (VStr "")))
  /\
  streamed "{'jsonrpc':'2.0','id':'1','result':{'foo':1}}"
  = Return (VObj [("jsonrpc", VStr "2.0"); ("id", VStr "1");
                  ("result", VObj [("foo", VNum 1)])]).
Proof. vm_compute. repeat split. Qed.

(** The stream of section 8 of the specification: one record in two chunks *)
Lemma stream_reconstruction :
  fst (fetchMcp
         (Scenario.scripted
            [Scenario.stream_reply None
               ["data: {'jsonrpc':'2.0','id':'1','resu";
                "lt':{'foo':1}}$$"]])
         (requestBody "1" "tools/list" (VObj []))
         (startup None None))
  = Return (VObj [("jsonrpc", VStr "2.0"); ("id", VStr "1");
                  ("result", VObj [("foo", VNum 1)])]).
Proof. vm_compute. reflexivity. Qed.



(** ** C5: what the caller gets *)

Arguments fetchMcp : simpl never.
Arguments ensureUpstreamInitialized : simpl never.
Arguments forwardToHttpMcp_fuel : simpl never.

Lemma envelope_error_not_session (error : Value) (m : string) :
  opt_prop error "message" = VStr m ->
  isSessionError_envelope (toLowerCase m) error = false ->
  isSessionError_thrown (error_of_envelope error) = false.
Proof.
  intros Hm Hn.
  unfold isSessionError_envelope in Hn.
  repeat (apply orb_false_iff in Hn; destruct Hn as [Hn ?]).
  unfold isSessionError_thrown, error_of_envelope. simpl err_status.
  simpl err_message. rewrite Hm. unfold js_or. simpl truthy.
  destruct (String.eqb_spec m "") as [->|Hne]; simpl.
  - reflexivity.
  - rewrite Hn, H0, H1. reflexivity.
Qed.

Lemma lower_or_empty_string (m : string) :
  lower_or_empty (VStr m) = Return (toLowerCase m).
Proof.
  unfold lower_or_empty, js_or. simpl.
  destruct (String.eqb_spec m "") as [->|Hne]; reflexivity.
Qed.

(** The first attempt of a call, once [ensureUpstreamInitialized] has
    returned: the call is what follows the send. *)
Lemma forward_after_ensure (env : Env) (method : string) (params : Value)
  (w w1 : World) :
  ensureUpstreamInitialized env w = (Return tt, w1) ->
  forwardToHttpMcp env method params w
  = try_catch
      (data <- fetchMcp env (send_body env method params w1) ;;
       error <- lift (get_prop data "error") ;;
       if truthy error then
         errMsg <- lift (lower_or_empty (opt_prop error "message")) ;;
         if isSessionError_envelope errMsg error then
           forget_session ;;
           forwardToHttpMcp_fuel env 1 method (params_or_empty params) 1
         else throw (error_of_envelope error)
       else ret (Some (opt_prop data "result")))
      (fun err =>
         if isSessionError_thrown err then
           forget_session ;;
           forwardToHttpMcp_fuel env 1 method (params_or_empty params) 1
         else throw err)
      (bump_random w1).
Proof.
  intros Hens. unfold forwardToHttpMcp. rewrite forward_unfold.
  unfold forward_body. unfold bind at 1. rewrite Hens.
  unfold bind at 1. unfold Math_random at 1. reflexivity.
Qed.

(** The retried attempt, once [ensureUpstreamInitialized] has returned *)
Lemma retry_after_ensure (env : Env) (method : string) (params : Value)
  (w w1 : World) :
  ensureUpstreamInitialized env w = (Return tt, w1) ->
  forwardToHttpMcp_fuel env 1 method (params_or_empty params) 1 w
  = try_catch
      (data <- fetchMcp env (send_body env method params w1) ;;
       error <- lift (get_prop data "error") ;;
       if truthy error then
         errMsg <- lift (lower_or_empty (opt_prop error "message")) ;;
         throw (error_of_envelope error)
       else ret (Some (opt_prop data "result")))
      (fun err => throw err)
      (bump_random w1).
Proof.
  intros Hens. rewrite forward_unfold.
  unfold forward_body. unfold bind at 1. rewrite Hens.
  unfold bind at 1. unfold Math_random at 1.
  unfold send_body.
  destruct params; reflexivity.
Qed.

(** A handshake whose response has an [error] member that neither says
    the upstream is initialized already nor calls for a retry *)
Lemma ensure_throws_init_error (env : Env) (w w1 : World) (data : Value)
  (errMsg : string) :
  upstreamInitialized w = false ->
  fetchMcp env (initRequestBody (Math_random_id env (random_calls w)))
    (bump_random w)
  = (Return data, w1) ->
  truthy (opt_prop data "error") = true ->
  lower_or_empty (opt_prop (opt_prop data "error") "message")
  = Return errMsg ->
  includes errMsg "already initialized" = false ->
  includes errMsg "already started" = false ->
  includes (toLowerCase (err_message (init_error (opt_prop data "error"))))
    "already initialized" = false ->
  init_should_retry (init_error (opt_prop data "error")) = false ->
  ensureUpstreamInitialized env w
  = (Throw (init_error (opt_prop data "error")), w1).
Proof.
  intros Hinit Hsend Hte Hlow Ha Hb Hc Hr.
  unfold init_error in *.
  unfold ensureUpstreamInitialized, bind, gets. rewrite Hinit.
  unfold Math_random, try_catch, init_attempt, init_after_response, bind. rewrite Hsend.
  unfold lift.
  rewrite (truthy_get_prop data "error" (truthy_opt_prop _ _ Hte)).
  rewrite Hte, Hlow, Ha, Hb. change (false || false) with false.
  unfold throw. cbv beta iota.
  unfold init_recover. rewrite Hc, Hr. reflexivity.
Qed.


(** ** C6: reuse of the session *)


(** ** C9: two calls in flight *)

(** The two pieces a call is cut into are the function: run one after the
    other with nothing in between, they do what
    [ensureUpstreamInitialized] does. *)
Lemma ensure_in_two_steps (env : Env) (w : World) :
  ensureUpstreamInitialized env w =
  match Concurrent.start env w with
  | (Concurrent.AwaitingInitialize body reply, w') =>
      Concurrent.resume env body reply w'
  | (Concurrent.Settled r, w') => (r, w')
  | (Concurrent.Called, w') => (Return tt, w')
  end.
Proof.
  unfold ensureUpstreamInitialized, Concurrent.start, bind, gets.
  destruct (upstreamInitialized w); [reflexivity |].
  unfold Math_random, Concurrent.resume, try_catch, init_attempt, bind.
  rewrite fetchMcp_unfold.
  destruct (upstream env _ _); reflexivity.
Qed.

(** C9, on the code.  Two calls made at the start of the process, the second
    given its turn while the first awaits the response to [initialize]:
    both have read [upstreamInitialized] as false, both have sent an
    [initialize] request, and the two requests are in flight together.  This
    holds whatever the upstream and whatever token was preloaded. *)
Theorem concurrent_calls_both_handshake (env : Env)
  (MCP_SESSION_ID file : option string) :
  let sys :=
    Concurrent.run env [0; 1]
      ([Concurrent.Called; Concurrent.Called], startup MCP_SESSION_ID file) in
  Concurrent.in_flight sys = 2
  /\ handshakes (requests (snd sys)) = 2
  /\ upstreamInitialized (snd sys) = false.
Proof. repeat split. Qed.

(** The same two calls to the end, against an upstream that accepts
    everything: two handshakes when the calls overlap, one when the first
    call finishes before the second starts. *)
Lemma overlapping_and_sequential_calls :
  let calls := [Concurrent.Called; Concurrent.Called] in
  let w := startup None None in
  let overlapping := Concurrent.run Upstreams.agreeable [0; 1; 0; 1] (calls, w) in
  let sequential := Concurrent.run Upstreams.agreeable [0; 0; 1] (calls, w) in
  fst overlapping
  = [Concurrent.Settled (Return tt); Concurrent.Settled (Return tt)]
  /\ Scenario.methods_of (snd overlapping)
     = ["initialize"; "initialize";
        "notifications/initialized"; "notifications/initialized"]
  /\ fst sequential
     = [Concurrent.Settled (Return tt); Concurrent.Settled (Return tt)]
  /\ Scenario.methods_of (snd sequential)
     = ["initialize"; "notifications/initialized"].
Proof. vm_compute. repeat split. Qed.

(** * Further properties of the code *)

(** ** What holds when a function returns *)

Lemma returns_bind {A B} (P R Q : World -> Prop) (m : M A) (k : A -> M B) :
  returns_in P m R -> (forall x, returns_in R (k x) Q) ->
  returns_in P (bind m k) Q.
Proof.
  intros Hm Hk w b w' HP. unfold bind.
  destruct (m w) as [[x|e] w1] eqn:E; [| discriminate].
  intros Hrun. exact (Hk x w1 b w' (Hm w x w1 HP E) Hrun).
Qed.

Lemma returns_try_catch {A} (P Q : World -> Prop) (m : M A)
  (h : JsError -> M A) :
  returns_in P m Q -> (forall e, returns_in anywhere (h e) Q) ->
  returns_in P (try_catch m h) Q.
Proof.
  intros Hm Hh w a w' HP. unfold try_catch.
  destruct (m w) as [[x|e] w1] eqn:E.
  - intros Hrun. inversion Hrun; subst. exact (Hm w a w' HP E).
  - intros Hrun. exact (Hh e w1 a w' I Hrun).
Qed.

Lemma returns_weaken {A} (P P' Q : World -> Prop) (m : M A) :
  (forall w, P' w -> P w) -> returns_in P m Q -> returns_in P' m Q.
Proof. intros HP Hm w a w' H. apply Hm. now apply HP. Qed.

Lemma returns_throw {A} (P Q : World -> Prop) (e : JsError) :
  returns_in P (@throw A e) Q.
Proof. intros w a w' _ H. discriminate. Qed.

Lemma returns_lift {A} (P : World -> Prop) (r : Result A) :
  returns_in P (lift r) P.
Proof. intros w a w' HP H. unfold lift in H. now inversion H; subst. Qed.

Lemma returns_set_initialized (P : World -> Prop) :
  returns_in P (modify (set_initialized true)) initialized.
Proof. intros w a w' _ H. inversion H. reflexivity. Qed.

Lemma fetchMcp_frame (env : Env) (body : RequestBody) (w : World) :
  upstreamInitialized (snd (fetchMcp env body w)) = upstreamInitialized w
  /\ random_calls (snd (fetchMcp env body w)) = random_calls w.
Proof.
  rewrite fetchMcp_unfold.
  destruct (upstream env (length (requests w)) (mk_request env w body))
    as [e|res]; [split; reflexivity |].
  set (w0 := push_request (mk_request env w body) w).
  destruct (read_response_spec env res w0) as [(e & H) | (data & H & _)];
    rewrite H; simpl.
  - destruct (adopt_frame env (header_value (res_session res)) w0)
      as (_ & Hi & Hr). now rewrite Hi, Hr.
  - destruct (adopt_frame env (body_session data)
                (adopt env (header_value (res_session res)) w0))
      as (_ & Hi & Hr).
    destruct (adopt_frame env (header_value (res_session res)) w0)
      as (_ & Hi' & Hr').
    now rewrite Hi, Hr, Hi', Hr'.
Qed.

Lemma returns_fetchMcp (env : Env) (body : RequestBody) :
  returns_in initialized (fetchMcp env body) initialized.
Proof.
  intros w a w' HP H. unfold initialized in *.
  destruct (fetchMcp_frame env body w) as [Hi _].
  rewrite H in Hi. simpl in Hi. congruence.
Qed.

Lemma returns_init_tail (env : Env) (P : World -> Prop) :
  returns_in P (send_initialized env ;; modify (set_initialized true))
    initialized.
Proof.
  apply (returns_bind P anywhere); [intros w a w' _ _; exact I |].
  intros _. apply returns_set_initialized.
Qed.

Lemma returns_init_after_response (env : Env) (data : Value) :
  returns_in anywhere (init_after_response env data) initialized.
Proof.
  unfold init_after_response.
  apply (returns_bind anywhere anywhere); [apply returns_lift |].
  intros error. destruct (truthy error).
  - apply (returns_bind anywhere anywhere); [apply returns_lift |].
    intros errMsg. destruct (_ || _).
    + apply returns_set_initialized.
    + apply returns_throw.
  - apply returns_init_tail.
Qed.

Lemma returns_init_recover (env : Env) (body : RequestBody) (err : JsError) :
  returns_in anywhere (init_recover env body err) initialized.
Proof.
  unfold init_recover.
  destruct (includes _ "already initialized");
    [apply returns_set_initialized |].
  destruct (init_should_retry err); [| apply returns_throw].
  apply (returns_bind anywhere anywhere); [intros w a w' _ _; exact I |].
  intros _.
  apply (returns_bind anywhere anywhere); [intros w a w' _ _; exact I |].
  intros retryData.
  apply (returns_bind anywhere anywhere); [apply returns_lift |].
  intros error. destruct (truthy error).
  - apply returns_throw.
  - apply returns_init_tail.
Qed.

Lemma returns_ensure (env : Env) :
  returns_in anywhere (ensureUpstreamInitialized env) initialized.
Proof.
  intros w a w' _. unfold ensureUpstreamInitialized, bind at 1, gets.
  destruct (upstreamInitialized w) eqn:Hinit.
  - intros H. inversion H; subst. exact Hinit.
  - unfold bind at 1, Math_random at 1.
    apply (returns_try_catch anywhere initialized); [| | exact I].
    + unfold init_attempt.
      apply (returns_bind anywhere anywhere); [intros ? ? ? _ _; exact I |].
      apply returns_init_after_response.
    + apply returns_init_recover.
Qed.

(** X1: the flag after the handshake.  Whenever
    [ensureUpstreamInitialized] returns instead of throwing, whatever the
    upstream answered and whichever path was taken (nothing to do, first
    attempt, an upstream that was initialized already, internal retry),
    [upstreamInitialized] is true afterwards. *)
Theorem ensure_returns_initialized (env : Env) (w w' : World) :
  ensureUpstreamInitialized env w = (Return tt, w') ->
  upstreamInitialized w' = true.
Proof. intros H. exact (returns_ensure env w tt w' I H). Qed.

Lemma ensure_returns_initialized_witness :
  let env :=
    Scenario.scripted
      [Scenario.json_reply 401 None "{'error':{'message':'no session'}}";
       Scenario.json_reply 200 (Some "s2") "{'jsonrpc':'2.0','result':{}}";
       Scenario.json_reply 202 None ""] in
  upstreamInitialized
    (snd (ensureUpstreamInitialized env (startup (Some "stale") None)))
  = true.
Proof.
  intros env.
  apply (ensure_returns_initialized env (startup (Some "stale") None)).
  vm_compute. reflexivity.
Defined.

(** [m] leaves the session initialized whenever it returns a value. *)
Lemma returns_some_bind {A} (P R : World -> Prop) (m : M A)
  (k : A -> M (option Value)) :
  returns_in P m R ->
  (forall x, returns_some R (k x)) ->
  returns_some P (bind m k).
Proof.
  intros Hm Hk w v w' HP. unfold bind.
  destruct (m w) as [[x|e] w1] eqn:E; [| discriminate].
  intros Hrun. exact (Hk x w1 v w' (Hm w x w1 HP E) Hrun).
Qed.

Lemma returns_some_try_catch (P : World -> Prop) (m : M (option Value))
  (h : JsError -> M (option Value)) :
  returns_some P m -> (forall e, returns_some anywhere (h e)) ->
  returns_some P (try_catch m h).
Proof.
  intros Hm Hh w v w' HP. unfold try_catch.
  destruct (m w) as [[x|e] w1] eqn:E.
  - intros Hrun. inversion Hrun; subst. exact (Hm w v w' HP E).
  - intros Hrun. exact (Hh e w1 v w' I Hrun).
Qed.

Lemma returns_some_throw (P : World -> Prop) (e : JsError) :
  returns_some P (throw e).
Proof. intros w v w' _ H. discriminate. Qed.

Lemma returns_some_forward (env : Env) (fuel : nat) (method : string)
  (params : Value) (retryCount : nat) :
  returns_some anywhere
    (forwardToHttpMcp_fuel env fuel method params retryCount).
Proof.
  revert params retryCount.
  induction fuel as [|fuel' IH]; intros params retryCount.
  - intros w v w' _ H. discriminate.
  - rewrite forward_unfold. unfold forward_body.
    set (p := match params with VUndefined => VObj [] | _ => params end).
    assert (Hretry : forall P,
               returns_some P
                 (forget_session ;;
                  forwardToHttpMcp_fuel env fuel' method p (retryCount + 1))).
    { intros P. apply (returns_some_bind P anywhere).
      - intros w a w' _ _. exact I.
      - intros _. apply IH. }
    apply (returns_some_bind anywhere initialized); [apply returns_ensure |].
    intros _.
    apply (returns_some_bind initialized initialized).
    { intros w a w' HP H. inversion H; subst. exact HP. }
    intros id.
    apply returns_some_try_catch.
    + apply (returns_some_bind initialized initialized);
        [apply returns_fetchMcp |].
      intros data.
      apply (returns_some_bind initialized initialized);
        [apply returns_lift |].
      intros error. destruct (truthy error).
      * apply (returns_some_bind initialized initialized);
          [apply returns_lift |].
        intros errMsg. destruct (_ && _).
        -- apply Hretry.
        -- apply returns_some_throw.
      * intros w v w' HP H. inversion H; subst. exact HP.
    + intros e. destruct (_ && _).
      * apply Hretry.
      * apply returns_some_throw.
Qed.

(** X2: the flag after a call.  Whenever a forwarded call returns a value
    to its caller, after whatever retries, [upstreamInitialized] is true
    afterwards: a later call will not repeat the handshake. *)
Theorem forward_returns_initialized (env : Env) (method : string)
  (params : Value) (w w' : World) (v : Value) :
  forwardToHttpMcp env method params w = (Return (Some v), w') ->
  upstreamInitialized w' = true.
Proof.
  intros H.
  exact (returns_some_forward env 2 method params 0 w v w' I H).
Qed.

Lemma forward_returns_initialized_witness :
  let env :=
    Scenario.scripted
      [Scenario.json_reply 200 None
         "{'jsonrpc':'2.0','error':{'code':-32000,'message':'session expired'}}";
       Scenario.json_reply 200 (Some "n") "{'jsonrpc':'2.0','result':{}}";
       Scenario.json_reply 202 None "";
       Scenario.json_reply 200 None "{'jsonrpc':'2.0','result':{'ok':true}}"] in
  upstreamInitialized
    (snd (forwardToHttpMcp env "tools/call" (VObj []) States.ready))
  = true.
Proof.
  intros env.
  apply (forward_returns_initialized env "tools/call" (VObj []) States.ready
           (snd (forwardToHttpMcp env "tools/call" (VObj []) States.ready))
           (VObj [("ok", VBool true)])).
  vm_compute. reflexivity.
Defined.

(** ** Lines and chunks *)

Lemma split_lines_nonempty (s : string) : split_lines s <> [].
Proof.
  induction s as [|c s IH]; simpl; [discriminate |].
  destruct (Ascii.eqb c newline); [discriminate |].
  destruct (split_lines s); discriminate.
Qed.

Lemma pop_cons (x : string) (l : list string) :
  l <> [] -> pop (x :: l) = (x :: fst (pop l), snd (pop l)).
Proof.
  intros Hl. destruct l as [|y l]; [contradiction |].
  change (pop (x :: y :: l))
    with (let (init, last) := pop (y :: l) in (x :: init, last)).
  destruct (pop (y :: l)). reflexivity.
Qed.

Lemma pop_app (l1 l2 : list string) :
  l2 <> [] -> pop (l1 ++ l2)%list = ((l1 ++ fst (pop l2))%list, snd (pop l2)).
Proof.
  intros Hl2. induction l1 as [|x l1 IH]; simpl app.
  - now destruct (pop l2).
  - rewrite pop_cons, IH; [reflexivity |].
    destruct l1; [exact Hl2 | discriminate].
Qed.

Lemma split_lines_cons (c : ascii) (s : string) :
  split_lines (String c s) =
  if Ascii.eqb c newline then EmptyString :: split_lines s
  else String c (hd EmptyString (split_lines s)) :: tl (split_lines s).
Proof.
  simpl. destruct (Ascii.eqb c newline); [reflexivity |].
  pose proof (split_lines_nonempty s).
  destruct (split_lines s); [contradiction | reflexivity].
Qed.

Lemma pop_last (l : list string) (x : string) :
  pop (l ++ [x])%list = (l, x).
Proof.
  rewrite pop_app by discriminate. simpl. now rewrite app_nil_r.
Qed.

Lemma pop_spec (l : list string) :
  l <> [] -> l = (fst (pop l) ++ [snd (pop l)])%list.
Proof.
  induction l as [|x l IH]; [contradiction |]. intros _.
  destruct l as [|y l]; [reflexivity |].
  rewrite pop_cons by discriminate. simpl fst. simpl snd.
  simpl app. f_equal. apply IH. discriminate.
Qed.

(** Splitting a text that arrives in two parts: the complete lines of the
    first part, then the lines of what was left of it followed by the
    second part. *)
Lemma split_lines_app (a b : string) :
  split_lines (a ++ b) =
  (fst (pop (split_lines a)) ++ split_lines (snd (pop (split_lines a)) ++ b))%list.
Proof.
  induction a as [|c a IH].
  - reflexivity.
  - change (String c a ++ b) with (String c (a ++ b)).
    rewrite !split_lines_cons, IH.
    pose proof (pop_spec (split_lines a) (split_lines_nonempty a)) as HL.
    destruct (pop (split_lines a)) as [i l]. simpl fst in *. simpl snd in *.
    rewrite HL.
    destruct (Ascii.eqb c newline) eqn:E.
    + change (EmptyString :: i ++ [l])%list
        with ((EmptyString :: i) ++ [l])%list.
      rewrite pop_last. reflexivity.
    + destruct i as [|x i].
      * cbn [app hd tl pop fst snd].
        change (String c l ++ b) with (String c (l ++ b)).
        rewrite split_lines_cons, E. reflexivity.
      * cbn [app hd tl].
        change (String c x :: i ++ [l])%list
          with ((String c x :: i) ++ [l])%list.
        rewrite pop_last. reflexivity.
Qed.

Lemma sse_lines_app (env : Env) (l1 l2 : list string) (w : World) :
  sse_lines env (l1 ++ l2)%list w =
  match sse_lines env l1 w with
  | (Return None, w1) => sse_lines env l2 w1
  | other => other
  end.
Proof.
  revert w. induction l1 as [|line l1 IH]; intros w; simpl; [reflexivity |].
  unfold bind.
  destruct (sse_line_spec env line w) as [H | (data & H & _)]; rewrite H.
  - apply IH.
  - reflexivity.
Qed.

Lemma string_app_assoc (a b c : string) : (a ++ b) ++ c = a ++ (b ++ c).
Proof. induction a; simpl; congruence. Qed.

(** Two chunks read one after the other are read as their concatenation. *)
Lemma read_stream_merge (env : Env) (c1 c2 : string) (rest : list string)
  (buffer : string) (w : World) :
  read_stream env (c1 :: c2 :: rest) buffer w
  = read_stream env ((c1 ++ c2) :: rest) buffer w.
Proof.
  cbn [read_stream].
  rewrite <- string_app_assoc, (split_lines_app (buffer ++ c1) c2).
  rewrite pop_app by apply split_lines_nonempty.
  destruct (pop (split_lines (buffer ++ c1))) as [l1 r1]. simpl fst. simpl snd.
  destruct (pop (split_lines (r1 ++ c2))) as [l2 r2]. simpl fst. simpl snd.
  unfold bind. rewrite sse_lines_app.
  destruct (sse_lines_spec env l1 w) as [H | (data & H & _)]; rewrite H;
    reflexivity.
Qed.

Lemma read_stream_concat (env : Env) (chunks : list string) (buffer : string)
  (w : World) :
  chunks <> [] ->
  read_stream env chunks buffer w
  = read_stream env [String.concat "" chunks] buffer w.
Proof.
  intros Hne.
  destruct chunks as [|c chunks]; [contradiction |]. clear Hne.
  revert c. induction chunks as [|c' chunks IH]; intros c; [reflexivity |].
  rewrite read_stream_merge, IH.
  replace (String.concat "" (c :: c' :: chunks))
    with (String.concat "" ((c ++ c') :: chunks)); [reflexivity |].
  destruct chunks as [|c'' chunks]; simpl; [reflexivity |].
  now rewrite string_app_assoc.
Qed.

Lemma read_stream_by_text (env : Env) (chunks : list string) (w : World) :
  read_stream env chunks "" w
  = read_stream env [String.concat "" chunks] "" w.
Proof.
  destruct chunks as [|c chunks]; [reflexivity |].
  apply read_stream_concat. discriminate.
Qed.

(** X3: chunk boundaries do not matter.  Two responses with the same
    status and headers whose bodies are the same text, cut into chunks
    differently, are read the same way: same result or error, same state.
    The stream of section 8 of the specification, cut in the middle of a
    key, is one instance. *)
Theorem chunking_is_irrelevant (env : Env) (r1 r2 : Response) (w : World) :
  res_status r1 = res_status r2 ->
  res_session r1 = res_session r2 ->
  res_content_type r1 = res_content_type r2 ->
  res_text r1 = res_text r2 ->
  read_response env r1 w = read_response env r2 w.
Proof.
  destruct r1 as [s1 h1 ct1 c1], r2 as [s2 h2 ct2 c2].
  unfold res_text. simpl. intros <- <- <- Ht.
  unfold read_response, bind, http_error, res_text, res_ok. simpl.
  rewrite guarded_save, Ht.
  destruct ((200 <=? s1)%Z && (s1 <=? 299)%Z); [| reflexivity].
  simpl. destruct (includes _ "text/event-stream"); [| reflexivity].
  now rewrite (read_stream_by_text env c1), (read_stream_by_text env c2), Ht.
Qed.

Lemma chunking_is_irrelevant_witness :
  let env := Scenario.scripted [] in
  let cut chunks :=
    mkResponse 200 (Some "s") (Some "text/event-stream")
      (map Scenario.txt chunks) in
  read_response env
    (cut ["data: {'jsonrpc':'2.0','id':'1','resu"; "lt':{'foo':1}}$$"])
    (startup None None)
  = read_response env
      (cut ["data: {'jsonrpc':'2.0','id':'1','result':{'foo':1}}$$"])
      (startup None None).
Proof.
  intros env cut.
  apply (chunking_is_irrelevant env); reflexivity.
Defined.

Lemma one_line_split (s : string) :
  one_line s = true -> split_lines s = [s].
Proof.
  induction s as [|c s IH]; simpl; [reflexivity |].
  destruct (Ascii.eqb c newline); simpl; [discriminate |].
  intros H. now rewrite (IH H).
Qed.

(** X4: a record that is not terminated is lost.  When the body of a
    stream holds no line feed at all (a single record whose line is not
    ended, say), no record is ever examined: the read fails with the error of
    a stream that ended without a result and the state is untouched,
    whatever the text is and however it is cut into chunks. *)
Theorem unterminated_record_is_lost (env : Env) (chunks : list string)
  (w : World) :
  one_line (String.concat "" chunks) = true ->
  read_stream env chunks "" w = (Throw stream_ended, w).
Proof.
  intros H. rewrite read_stream_by_text.
  cbn [read_stream]. change ("" ++ String.concat "" chunks)
    with (String.concat "" chunks).
  rewrite (one_line_split _ H). reflexivity.
Qed.

Lemma unterminated_record_is_lost_witness :
  read_stream (Scenario.scripted [])
    (map Scenario.txt ["data: {'jsonrpc':'2.0','id':'1',"; "'result':{'foo':1}}"])
    "" (startup None None)
  = (Throw stream_ended, startup None None).
Proof.
  apply (unterminated_record_is_lost (Scenario.scripted [])).
  reflexivity.
Defined.

Lemma terminated_app (l1 l2 : list string) :
  terminated (l1 ++ l2)%list = terminated l1 ++ terminated l2.
Proof.
  induction l1 as [|x l1 IH]; simpl; [reflexivity |].
  rewrite IH, string_app_assoc. reflexivity.
Qed.

(** X5: nothing is lost between chunks.  What lines 132-133 make of a
    buffer ([split] on line feeds, [pop] of the last element) is the buffer
    again: the lines handed to the loop, each with its line feed, followed
    by the fragment that is kept, and that fragment has no line feed. *)
Theorem buffer_is_split_without_loss (s : string) :
  s = terminated (fst (pop (split_lines s))) ++ snd (pop (split_lines s))
  /\ one_line (snd (pop (split_lines s))) = true.
Proof.
  induction s as [|c s [IHeq IHone]].
  - split; reflexivity.
  - rewrite split_lines_cons.
    pose proof (pop_spec (split_lines s) (split_lines_nonempty s)) as HL.
    destruct (pop (split_lines s)) as [i l]. simpl fst in *. simpl snd in *.
    rewrite HL.
    destruct (Ascii.eqb_spec c newline) as [->|Hc].
    + change (EmptyString :: i ++ [l])%list
        with ((EmptyString :: i) ++ [l])%list.
      rewrite pop_last. simpl fst. simpl snd.
      split; [| exact IHone]. simpl. now rewrite <- IHeq.
    + destruct i as [|x i].
      * cbn [app hd tl pop fst snd terminated]. simpl in IHeq. subst s.
        split; [reflexivity |].
        simpl. rewrite IHone.
        now destruct (Ascii.eqb_spec c newline).
      * cbn [app hd tl].
        change (String c x :: i ++ [l])%list
          with ((String c x :: i) ++ [l])%list.
        rewrite pop_last. simpl fst. simpl snd.
        split; [| exact IHone]. simpl. simpl in IHeq. now rewrite <- IHeq.
Qed.

(** X6: the first answer wins.  In the lines of a chunk, once the
    lines before it have been passed over, the first record whose document
    has a truthy [result] or [error] is returned, with its session token
    adopted, and the lines after it are never examined: the outcome does not
    depend on them. *)
Theorem first_answer_wins (env : Env) (before rest : list string)
  (line : string) (fields : list (string * Value)) (w : World) :
  Forall (fun l => sse_line env l w = (Return None, w)) before ->
  startsWith line "data: " = true ->
  JSON_parse env (trim (slice 6 line)) = Return (VObj fields) ->
  truthy (assoc "result" fields) || truthy (assoc "error" fields) = true ->
  sse_lines env (before ++ line :: rest)%list w
  = (Return (Some (VObj fields)), adopt env (body_session (VObj fields)) w).
Proof.
  intros Hbefore Hp Hj Ht.
  rewrite sse_lines_app.
  assert (sse_lines env before w = (Return None, w)) as ->.
  { induction Hbefore as [|l ls Hl _ IH]; [reflexivity |].
    simpl. unfold bind. now rewrite Hl. }
  now apply sse_lines_answer.
Qed.

Lemma first_answer_wins_witness :
  let env := Scenario.scripted [] in
  let lines :=
    map Scenario.txt
      ["event: message"; "data: {'method':'notifications/progress'}"; "";
       "data: {'id':'1','result':{'sessionId':'one'}}";
       "data: {'id':'1','result':{'sessionId':'two'}}"] in
  sse_lines env lines (startup None None)
  = (Return (Some (VObj [("id", VStr "1");
                         ("result", VObj [("sessionId", VStr "one")])])),
     adopt env (VStr "one") (startup None None)).
Proof.
  intros env lines.
  apply (first_answer_wins env
           (map Scenario.txt
              ["event: message"; "data: {'method':'notifications/progress'}"; ""])
           (map Scenario.txt ["data: {'id':'1','result':{'sessionId':'two'}}"])
           (Scenario.txt "data: {'id':'1','result':{'sessionId':'one'}}")
           [("id", VStr "1"); ("result", VObj [("sessionId", VStr "one")])]
           (startup None None)).
  - repeat constructor.
  - reflexivity.
  - reflexivity.
  - reflexivity.
Defined.

(** ** The requests of a call *)

Lemma grows_bind {A B} (m : M A) (k : A -> M B) :
  grows m -> (forall x, grows (k x)) -> grows (bind m k).
Proof. apply issues_bind; auto. Qed.

Lemma grows_try_catch {A} (m : M A) (h : JsError -> M A) :
  grows m -> (forall e, grows (h e)) -> grows (try_catch m h).
Proof. apply issues_try_catch; auto. Qed.

Lemma grows_silent {A} (m : M A) :
  (forall w, requests (snd (m w)) = requests w) -> grows m.
Proof. apply issues_silent. exact I. Qed.

Lemma grows_forward (env : Env) (fuel : nat) (method : string)
  (params : Value) (retryCount : nat) :
  grows (forwardToHttpMcp_fuel env fuel method params retryCount).
Proof.
  apply (forward_issues env method (fun _ _ _ => True)); auto.
Qed.

Lemma grows_init_recover (env : Env) (body : RequestBody) (err : JsError) :
  grows (init_recover env body err).
Proof.
  unfold init_recover.
  destruct (includes _ "already initialized"); [now apply grows_silent |].
  destruct (init_should_retry err); [| now apply grows_silent].
  apply grows_bind; [now apply grows_silent |]. intros _.
  apply grows_bind; [apply fetchMcp_issues; auto |]. intros retryData.
  apply grows_bind; [now apply grows_silent |]. intros error.
  destruct (truthy error); [now apply grows_silent |].
  apply grows_bind; [apply send_initialized_issues; auto |].
  intros _. now apply grows_silent.
Qed.

Lemma grows_init_after_response (env : Env) (data : Value) :
  grows (init_after_response env data).
Proof.
  unfold init_after_response.
  apply grows_bind; [now apply grows_silent |]. intros error.
  destruct (truthy error).
  - apply grows_bind; [now apply grows_silent |]. intros errMsg.
    destruct (_ || _); now apply grows_silent.
  - apply grows_bind; [apply send_initialized_issues; auto |].
    intros _. now apply grows_silent.
Qed.

Lemma grows_resume (env : Env) (body : RequestBody) (reply : FetchReply) :
  grows (Concurrent.resume env body reply).
Proof.
  unfold Concurrent.resume.
  apply grows_try_catch; [| intros e; apply grows_init_recover].
  apply grows_bind; [| intros data; apply grows_init_after_response].
  destruct reply as [e|res]; [now apply grows_silent |].
  apply grows_silent. intros w. apply read_response_requests.
Qed.

(** A handshake that has to be made opens with its [initialize] request. *)
Lemma ensure_opens (env : Env) (w : World) :
  upstreamInitialized w = false ->
  exists new,
    requests (snd (ensureUpstreamInitialized env w))
    = (new ++ opening_request env w :: requests w)%list.
Proof.
  intros Hinit. rewrite ensure_in_two_steps.
  unfold Concurrent.start. rewrite Hinit.
  match goal with
  | |- context [Concurrent.resume env ?b ?r ?w0] =>
      destruct (grows_resume env b r w0) as (new & E & _)
  end.
  exists new. exact E.
Qed.

Lemma ensure_noop (env : Env) (w : World) :
  upstreamInitialized w = true ->
  ensureUpstreamInitialized env w = (Return tt, w).
Proof.
  intros H. unfold ensureUpstreamInitialized, bind, gets. now rewrite H.
Qed.

Lemma bind_return {A B} (m : M A) (k : A -> M B) (w w1 : World) (a : A) :
  m w = (Return a, w1) -> bind m k w = k a w1.
Proof. intros H. unfold bind. now rewrite H. Qed.

Lemma bind_throw {A B} (m : M A) (k : A -> M B) (w w1 : World)
  (e : JsError) :
  m w = (Throw e, w1) -> bind m k w = (Throw e, w1).
Proof. intros H. unfold bind. now rewrite H. Qed.

(** A call or a retry made when the session is not initialized opens with
    the [initialize] request of its handshake. *)
Lemma forward_fuel_opens (env : Env) (fuel : nat) (method : string)
  (params : Value) (retryCount : nat) (w : World) :
  upstreamInitialized w = false ->
  exists new,
    requests
      (snd (forwardToHttpMcp_fuel env (S fuel) method params retryCount w))
    = (new ++ opening_request env w :: requests w)%list.
Proof.
  intros Hinit.
  destruct (ensure_opens env w Hinit) as (new1 & E1).
  destruct (ensureUpstreamInitialized env w) as [[[]|e] w1] eqn:Hens.
  - pose proof (returns_ensure env w tt w1 I Hens) as Hready.
    destruct (grows_forward env (S fuel) method params retryCount w1)
      as (new2 & E2 & _).
    rewrite forward_unfold in *. unfold forward_body in *.
    cbv zeta in *.
    rewrite (bind_return (ensureUpstreamInitialized env) _ w w1 tt Hens).
    rewrite (bind_return (ensureUpstreamInitialized env) _ w1 w1 tt
               (ensure_noop env w1 Hready)) in E2.
    exists (new2 ++ new1)%list.
    rewrite E2. simpl in E1. rewrite E1. apply app_assoc.
  - exists new1.
    rewrite forward_unfold. unfold forward_body. cbv zeta.
    rewrite (bind_throw (ensureUpstreamInitialized env) _ w w1 e Hens).
    exact E1.
Qed.

Lemma forward_opens (env : Env) (method : string) (params : Value)
  (w : World) :
  upstreamInitialized w = false ->
  exists new,
    requests (snd (forwardToHttpMcp env method params w))
    = (new ++ opening_request env w :: requests w)%list.
Proof. apply forward_fuel_opens. Qed.

Lemma opening_request_shape (env : Env) (w : World) :
  rpc_method (req_body (opening_request env w)) = "initialize"
  /\ req_session (opening_request env w)
     = (if truthy (upstreamSessionId w) then Some (upstreamSessionId w)
        else None).
Proof. split; reflexivity. Qed.

(** X7: the update tool.  A tools/call whose [name] is [update], with
    whatever other parameters and in whatever state (also when the upstream
    has a tool of that name), contacts no one: it returns the fixed
    confirmation, leaves no token in memory and no cache file, and marks the
    session uninitialized.  The next forwarded call therefore opens with an
    [initialize] request that carries no Mcp-Session-Id header. *)
Theorem update_resets_and_next_call_handshakes (env : Env)
  (params : Value) (w : World) (method : string) (next : Value) :
  get_prop params "name" = Return (VStr "update") ->
  let w1 := snd (handle_tools_call env params w) in
  fst (handle_tools_call env params w) = Return (Some update_confirmation)
  /\ requests w1 = requests w
  /\ upstreamSessionId w1 = VNull
  /\ cache_file w1 = None
  /\ upstreamInitialized w1 = false
  /\ exists new,
       requests (snd (forwardToHttpMcp env method next w1))
       = (new ++ opening_request env w1 :: requests w)%list
       /\ rpc_method (req_body (opening_request env w1)) = "initialize"
       /\ req_session (opening_request env w1) = None.
Proof.
  intros Hname.
  unfold handle_tools_call, bind, lift. rewrite Hname. simpl.
  repeat (split; [reflexivity |]).
  match goal with
  | |- context [forwardToHttpMcp env method next ?w1] =>
      destruct (forward_opens env method next w1 eq_refl) as (new & E)
  end.
  exists new. split; [exact E | split; reflexivity].
Qed.

Lemma update_resets_and_next_call_handshakes_witness :
  let env := Upstreams.agreeable in
  let params := VObj [("name", VStr "update"); ("arguments", VObj [])] in
  let w1 := snd (handle_tools_call env params States.ready) in
  fst (handle_tools_call env params States.ready)
  = Return (Some update_confirmation)
  /\ requests w1 = requests States.ready
  /\ upstreamSessionId w1 = VNull
  /\ cache_file w1 = None
  /\ upstreamInitialized w1 = false
  /\ exists new,
       requests (snd (forwardToHttpMcp env "tools/list" VUndefined w1))
       = (new ++ opening_request env w1 :: requests States.ready)%list
       /\ rpc_method (req_body (opening_request env w1)) = "initialize"
       /\ req_session (opening_request env w1) = None.
Proof.
  intros env params.
  apply (update_resets_and_next_call_handshakes env params States.ready
           "tools/list" VUndefined).
  reflexivity.
Defined.

Lemma startup_token_spec (MCP_SESSION_ID file : option string) :
  upstreamSessionId (startup MCP_SESSION_ID file)
  = match startup_token MCP_SESSION_ID file with
    | Some s => VStr s
    | None => VNull
    end
  /\ match startup_token MCP_SESSION_ID file with
     | Some s => s <> ""
     | None => True
     end.
Proof.
  assert (Hfile : forall data,
    js_or (VStr (trim data)) VNull
    = match (if trim data =? "" then None else Some (trim data)) with
      | Some s => VStr s
      | None => VNull
      end
    /\ match (if trim data =? "" then None else Some (trim data)) with
       | Some s => s <> ""
       | None => True
       end).
  { intros data. unfold js_or, truthy.
    destruct (String.eqb_spec (trim data) ""); split;
      try reflexivity; try exact I; assumption. }
  assert (Hnone : upstreamSessionId (startup None file)
                  = match file with
                    | Some data => js_or (VStr (trim data)) VNull
                    | None => VNull
                    end).
  { destruct file; reflexivity. }
  assert (Hempty : upstreamSessionId (startup (Some "") file)
                   = upstreamSessionId (startup None file)).
  { destruct file; reflexivity. }
  destruct MCP_SESSION_ID as [s|].
  - unfold startup_token.
    destruct (String.eqb_spec s "") as [Hs|Hs].
    + subst s. rewrite Hempty, Hnone.
      destruct file as [data|]; [apply Hfile | split; [reflexivity | exact I]].
    + split; [| assumption].
      assert (Ht : truthy (VStr s) = true).
      { unfold truthy. now destruct (String.eqb_spec s ""). }
      unfold startup, js_or, upstreamSessionId. now rewrite !Ht.
  - unfold startup_token. rewrite Hnone.
    destruct file as [data|]; [apply Hfile | split; [reflexivity | exact I]].
Qed.

(** The white space of [trim] is Unicode's: a byte order mark before the
    token is removed, and a file that holds a no-break space only gives no
    token. *)
Example startup_trims_unicode_space :
  upstreamSessionId
    (startup None (Some (Scenario.bytes [239; 187; 191] ++ "T" ++ String newline "")))
  = VStr "T"
  /\ upstreamSessionId (startup None (Some (Scenario.bytes [194; 160])))
     = VNull.
Proof. split; reflexivity. Qed.

(** X8: the first request of a process.  Whatever MCP_SESSION_ID and the
    cache file hold, the first forwarded call opens with an [initialize]
    request, and that request carries the token the process started with:
    MCP_SESSION_ID when it is set and not empty, otherwise the content of
    the cache file without the white space around it, and no Mcp-Session-Id
    header at all when neither gives a token (an empty variable, a blank or
    missing file). *)
Theorem first_request_carries_startup_token (env : Env)
  (MCP_SESSION_ID file : option string) (method : string) (params : Value) :
  let w := startup MCP_SESSION_ID file in
  exists new,
    requests (snd (forwardToHttpMcp env method params w))
    = (new ++ [opening_request env w])%list
    /\ rpc_method (req_body (opening_request env w)) = "initialize"
    /\ req_session (opening_request env w)
       = option_map VStr (startup_token MCP_SESSION_ID file).
Proof.
  intros w.
  destruct (forward_opens env method params w eq_refl) as (new & E).
  exists new. split; [exact E | split; [reflexivity |]].
  destruct (startup_token_spec MCP_SESSION_ID file) as [Htok Hne].
  destruct (opening_request_shape env w) as [_ ->].
  subst w. rewrite Htok.
  destruct (startup_token MCP_SESSION_ID file) as [s|]; simpl; [| reflexivity].
  destruct (String.eqb_spec s ""); [contradiction | reflexivity].
Qed.

Lemma mk_request_well_formed (env : Env) (w : World) (body : RequestBody) :
  well_formed_request env (mk_request env w body).
Proof.
  unfold well_formed_request, mk_request, configured_authorization. simpl.
  split.
  - destruct (UPSTREAM_AUTH env =? ""); reflexivity.
  - intros v. destruct (truthy (upstreamSessionId w)) eqn:E; [| discriminate].
    intros H. inversion H; subst. exact E.
Qed.

(** X9: the headers of every request.  Every request a forwarded call
    issues, in the handshake, in its internal retry, in the notification and
    in the forwarded requests of both attempts, has the Authorization header
    exactly when UPSTREAM_AUTH is not empty (with that value), and never has
    an Mcp-Session-Id header holding a falsy value. *)
Theorem requests_are_well_formed (env : Env) (method : string)
  (params : Value) :
  issues (Forall (well_formed_request env))
    (forwardToHttpMcp env method params).
Proof.
  apply (forward_issues env method
           (fun _ _ => Forall (well_formed_request env))).
  - constructor.
  - intros _ _ _ _ a b Ha Hb. apply Forall_app. now split.
  - intros _ _ _ _ a _ _ Ha. exact Ha.
  - intros w suffix. repeat constructor; apply mk_request_well_formed.
  - intros w. repeat constructor; apply mk_request_well_formed.
  - intros w id p. repeat constructor; apply mk_request_well_formed.
Qed.

(** X10: one request per [fetchMcp].  Whatever the upstream does (reject,
    answer with any status, any body), one [fetchMcp] adds exactly one
    request, built from the session token of the moment, and changes neither
    [upstreamInitialized] nor the supply of random names. *)
Theorem fetchMcp_one_request (env : Env) (body : RequestBody) (w : World) :
  requests (snd (fetchMcp env body w)) = mk_request env w body :: requests w
  /\ upstreamInitialized (snd (fetchMcp env body w)) = upstreamInitialized w
  /\ random_calls (snd (fetchMcp env body w)) = random_calls w.
Proof.
  split; [apply fetchMcp_requests | apply fetchMcp_frame].
Qed.


(** ** Recovery and the handshake's short cuts *)

Lemma forget_session_run (w : World) :
  forget_session w = (Return tt, forgotten w).
Proof. reflexivity. Qed.

Lemma retry_returns (env : Env) (method : string) (params : Value)
  (w2 w3 w4 : World) (data error : Value) :
  ensureUpstreamInitialized env (forgotten w2) = (Return tt, w3) ->
  fetchMcp env (send_body env method params w3) (bump_random w3)
  = (Return data, w4) ->
  get_prop data "error" = Return error ->
  truthy error = false ->
  (forget_session ;;
   forwardToHttpMcp_fuel env 1 method (params_or_empty params) 1) w2
  = (Return (Some (opt_prop data "result")), w4).
Proof.
  intros Hens Hsend Hget Hok.
  unfold bind at 1. rewrite forget_session_run.
  rewrite (retry_after_ensure env method params (forgotten w2) w3 Hens).
  unfold try_catch, bind at 1. rewrite Hsend.
  unfold bind at 1, lift at 1. rewrite Hget, Hok. reflexivity.
Qed.

(** X11: recovery from a session error.  When the forwarded request fails
    with a session error, thrown by the transport (1) or reported in the
    [error] member of the response (2), and the handshake and the request
    then go through on the retry, the caller gets the [result] of the second
    response and never sees the failure; the retry starts with no token in
    memory and no cache file. *)
Theorem session_error_is_recovered (env : Env) (method : string)
  (params : Value) :
  (forall w w1 w2 w3 w4 e1 data error,
      ensureUpstreamInitialized env w = (Return tt, w1) ->
      fetchMcp env (send_body env method params w1) (bump_random w1)
      = (Throw e1, w2) ->
      isSessionError_thrown e1 = true ->
      ensureUpstreamInitialized env (forgotten w2) = (Return tt, w3) ->
      fetchMcp env (send_body env method params w3) (bump_random w3)
      = (Return data, w4) ->
      get_prop data "error" = Return error ->
      truthy error = false ->
      forwardToHttpMcp env method params w
      = (Return (Some (opt_prop data "result")), w4)
      /\ upstreamSessionId (forgotten w2) = VNull
      /\ cache_file (forgotten w2) = None)
  /\
  (forall w w1 w2 w3 w4 data1 errMsg data error,
      ensureUpstreamInitialized env w = (Return tt, w1) ->
      fetchMcp env (send_body env method params w1) (bump_random w1)
      = (Return data1, w2) ->
      truthy (opt_prop data1 "error") = true ->
      lower_or_empty (opt_prop (opt_prop data1 "error") "message")
      = Return errMsg ->
      isSessionError_envelope errMsg (opt_prop data1 "error") = true ->
      ensureUpstreamInitialized env (forgotten w2) = (Return tt, w3) ->
      fetchMcp env (send_body env method params w3) (bump_random w3)
      = (Return data, w4) ->
      get_prop data "error" = Return error ->
      truthy error = false ->
      forwardToHttpMcp env method params w
      = (Return (Some (opt_prop data "result")), w4)
      /\ upstreamSessionId (forgotten w2) = VNull
      /\ cache_file (forgotten w2) = None).
Proof.
  split.
  - intros w w1 w2 w3 w4 e1 data error Hens Hsend Hs Hens' Hsend' Hget Hok.
    split; [| split; reflexivity].
    rewrite (forward_after_ensure env method params w w1 Hens).
    unfold try_catch at 1. unfold bind at 1. rewrite Hsend, Hs.
    apply (retry_returns env method params w2 w3 w4 data error); assumption.
  - intros w w1 w2 w3 w4 data1 errMsg data error
      Hens Hsend Hte Hlow Hs Hens' Hsend' Hget Hok.
    split; [| split; reflexivity].
    rewrite (forward_after_ensure env method params w w1 Hens).
    unfold try_catch at 1. unfold bind at 1. rewrite Hsend.
    unfold bind at 1, lift at 1.
    rewrite (truthy_get_prop data1 "error" (truthy_opt_prop _ _ Hte)).
    rewrite Hte.
    unfold bind at 1, lift at 1. rewrite Hlow, Hs.
    rewrite (retry_returns env method params w2 w3 w4 data error);
      [reflexivity | assumption ..].
Qed.

(** Both cases of [session_error_is_recovered], each on a run: a 401, and
    an [error] member with the code -32000 *)
Lemma session_error_is_recovered_witness :
  let call script :=
    fst (forwardToHttpMcp (Scenario.scripted script) "tools/call" (VObj [])
           States.ready) in
  call [Scenario.json_reply 401 None "gone";
        Scenario.json_reply 200 (Some "n") "{'jsonrpc':'2.0','id':'i','result':{}}";
        Scenario.json_reply 202 None "";
        Scenario.json_reply 200 None "{'jsonrpc':'2.0','id':'2','result':7}"]
  = Return (Some (VNum 7))
  /\
  call [Scenario.json_reply 200 None
          "{'jsonrpc':'2.0','id':'1','error':{'code':-32000,'message':'no'}}";
        Scenario.json_reply 200 (Some "n") "{'jsonrpc':'2.0','id':'i','result':{}}";
        Scenario.json_reply 202 None "";
        Scenario.json_reply 200 None "{'jsonrpc':'2.0','id':'2','result':7}"]
  = Return (Some (VNum 7)).
Proof.
  intros call. unfold call. split.
  - set (env :=
           Scenario.scripted
             [Scenario.json_reply 401 None "gone";
              Scenario.json_reply 200 (Some "n") "{'jsonrpc':'2.0','id':'i','result':{}}";
              Scenario.json_reply 202 None "";
              Scenario.json_reply 200 None "{'jsonrpc':'2.0','id':'2','result':7}"]).
    destruct (session_error_is_recovered env "tools/call" (VObj []))
      as (H & _).
    pose (w1 := States.ready).
    pose (sent1 := fetchMcp env (send_body env "tools/call" (VObj []) w1)
                    (bump_random w1)).
    pose (w3 := snd (ensureUpstreamInitialized env (forgotten (snd sent1)))).
    pose (sent2 := fetchMcp env (send_body env "tools/call" (VObj []) w3)
                    (bump_random w3)).
    destruct (H States.ready w1 (snd sent1) w3 (snd sent2)
                (mkError "Upstream error 401: gone" (VNum 401)
                   VUndefined VUndefined)
                (VObj [("jsonrpc", VStr "2.0"); ("id", VStr "2");
                       ("result", VNum 7)])
                VUndefined) as (E & _);
      [vm_compute; reflexivity .. |].
    rewrite E. reflexivity.
  - set (env :=
           Scenario.scripted
             [Scenario.json_reply 200 None
                "{'jsonrpc':'2.0','id':'1','error':{'code':-32000,'message':'no'}}";
              Scenario.json_reply 200 (Some "n") "{'jsonrpc':'2.0','id':'i','result':{}}";
              Scenario.json_reply 202 None "";
              Scenario.json_reply 200 None "{'jsonrpc':'2.0','id':'2','result':7}"]).
    destruct (session_error_is_recovered env "tools/call" (VObj []))
      as (_ & H).
    pose (w1 := States.ready).
    pose (sent1 := fetchMcp env (send_body env "tools/call" (VObj []) w1)
                    (bump_random w1)).
    pose (w3 := snd (ensureUpstreamInitialized env (forgotten (snd sent1)))).
    pose (sent2 := fetchMcp env (send_body env "tools/call" (VObj []) w3)
                    (bump_random w3)).
    destruct (H States.ready w1 (snd sent1) w3 (snd sent2)
                (VObj [("jsonrpc", VStr "2.0"); ("id", VStr "1");
                       ("error", VObj [("code", VNum (-32000));
                                       ("message", VStr "no")])])
                "no"
                (VObj [("jsonrpc", VStr "2.0"); ("id", VStr "2");
                       ("result", VNum 7)])
                VUndefined) as (E & _);
      [vm_compute; reflexivity .. |].
    rewrite E. reflexivity.
Defined.

(** X12: an upstream that is initialized already.  When the response to
    [initialize] has an [error] member whose message (any letter case) says
    [already initialized] or [already started] (1), or [fetchMcp] throws an
    error whose message says [already initialized] (2), such as a non-2xx
    response with that text, the handshake counts as done: it returns, marks
    the session initialized, and has issued the [initialize] request only, no
    notification and no retry. *)
Theorem already_initialized_is_success (env : Env) (w w1 : World) :
  upstreamInitialized w = false ->
  (forall data errMsg,
      fetchMcp env (initRequestBody (Math_random_id env (random_calls w)))
        (bump_random w)
      = (Return data, w1) ->
      truthy (opt_prop data "error") = true ->
      lower_or_empty (opt_prop (opt_prop data "error") "message")
      = Return errMsg ->
      includes errMsg "already initialized"
      || includes errMsg "already started" = true ->
      ensureUpstreamInitialized env w = (Return tt, set_initialized true w1)
      /\ requests (set_initialized true w1)
         = opening_request env w :: requests w)
  /\
  (forall e,
      fetchMcp env (initRequestBody (Math_random_id env (random_calls w)))
        (bump_random w)
      = (Throw e, w1) ->
      includes (toLowerCase (err_message e)) "already initialized" = true ->
      ensureUpstreamInitialized env w = (Return tt, set_initialized true w1)
      /\ requests (set_initialized true w1)
         = opening_request env w :: requests w).
Proof.
  intros Hinit.
  assert (Hreq : forall r,
    fetchMcp env (initRequestBody (Math_random_id env (random_calls w)))
      (bump_random w) = (r, w1) ->
    requests (set_initialized true w1) = opening_request env w :: requests w).
  { intros r H.
    pose proof (fetchMcp_requests env
                  (initRequestBody (Math_random_id env (random_calls w)))
                  (bump_random w)) as E.
    rewrite H in E. exact E. }
  split.
  - intros data errMsg Hsend Hte Hlow Hsaid.
    split; [| exact (Hreq _ Hsend)].
    unfold ensureUpstreamInitialized, bind, gets. rewrite Hinit.
    unfold Math_random, try_catch, init_attempt, init_after_response, bind.
    rewrite Hsend. unfold lift.
    rewrite (truthy_get_prop data "error" (truthy_opt_prop _ _ Hte)).
    rewrite Hte, Hlow, Hsaid. reflexivity.
  - intros e Hsend Hsaid.
    split; [| exact (Hreq _ Hsend)].
    unfold ensureUpstreamInitialized, bind, gets. rewrite Hinit.
    unfold Math_random, try_catch, init_attempt, bind.
    rewrite Hsend. unfold init_recover. rewrite Hsaid. reflexivity.
Qed.

(** Both cases of [already_initialized_is_success], each on a run *)
Lemma already_initialized_is_success_witness :
  let run script :=
    ensureUpstreamInitialized (Scenario.scripted script) (startup None None) in
  (fst (run [Scenario.json_reply 200 None
               "{'jsonrpc':'2.0','id':'i','error':{'code':-32600,'message':'Server Already Started'}}"])
   = Return tt
   /\ Scenario.methods_of
        (snd (run [Scenario.json_reply 200 None
                     "{'jsonrpc':'2.0','id':'i','error':{'code':-32600,'message':'Server Already Started'}}"]))
      = ["initialize"]%list)
  /\
  (fst (run [Scenario.json_reply 400 None "Already initialized"]) = Return tt
   /\ Scenario.methods_of
        (snd (run [Scenario.json_reply 400 None "Already initialized"]))
      = ["initialize"]%list).
Proof.
  intros run. unfold run. split.
  - set (env :=
           Scenario.scripted
             [Scenario.json_reply 200 None
                "{'jsonrpc':'2.0','id':'i','error':{'code':-32600,'message':'Server Already Started'}}"]).
    pose (w := startup None None).
    pose (sent := fetchMcp env
                    (initRequestBody (Math_random_id env (random_calls w)))
                    (bump_random w)).
    destruct (already_initialized_is_success env w (snd sent) eq_refl)
      as (H & _).
    destruct (H (VObj [("jsonrpc", VStr "2.0"); ("id", VStr "i");
                       ("error", VObj [("code", VNum (-32600));
                                       ("message",
                                        VStr "Server Already Started")])])
                "server already started") as (E & _);
      [vm_compute; reflexivity .. |].
    fold w. rewrite E. split; vm_compute; reflexivity.
  - set (env :=
           Scenario.scripted
             [Scenario.json_reply 400 None "Already initialized"]).
    pose (w := startup None None).
    pose (sent := fetchMcp env
                    (initRequestBody (Math_random_id env (random_calls w)))
                    (bump_random w)).
    destruct (already_initialized_is_success env w (snd sent) eq_refl)
      as (_ & H).
    destruct (H (mkError "Upstream error 400: Already initialized" (VNum 400)
                   VUndefined VUndefined)) as (E & _);
      [vm_compute; reflexivity .. |].
    fold w. rewrite E. split; vm_compute; reflexivity.
Defined.

Lemma grows_retry_tail (env : Env) (retryData : Value) :
  grows (error <- lift (get_prop retryData "error") ;;
         if truthy error then
           throw (new_Error (VStr ("Upstream Init Retry error: " ++
                                   js_String (opt_prop error "message"))))
         else
           send_initialized env ;;
           modify (set_initialized true)).
Proof.
  apply grows_bind; [now apply grows_silent |]. intros error.
  destruct (truthy error); [now apply grows_silent |].
  apply grows_bind; [apply send_initialized_issues; auto |].
  intros _. now apply grows_silent.
Qed.

(** X13: the handshake's retry.  When the first [initialize] fails with an
    error that calls for a retry (and does not say [already initialized]),
    the next request is the same [initialize] body sent again, this time
    without an Mcp-Session-Id header, whatever token was in memory. *)
Theorem retried_initialize_has_no_session (env : Env) (body : RequestBody)
  (err : JsError) (w : World) :
  includes (toLowerCase (err_message err)) "already initialized" = false ->
  init_should_retry err = true ->
  exists rest r,
    requests (snd (init_recover env body err w))
    = (rest ++ r :: requests w)%list
    /\ req_body r = body
    /\ req_session r = None
    /\ req_authorization r = configured_authorization env.
Proof.
  intros Hsaid Hretry.
  unfold init_recover. rewrite Hsaid, Hretry.
  unfold bind at 1, modify at 1.
  set (wc := set_initialized false (set_session VNull w)).
  pose proof (fetchMcp_requests env body wc) as Hreq.
  unfold bind at 1.
  destruct (fetchMcp env body wc) as [[retryData|e] w2].
  - destruct (grows_retry_tail env retryData w2) as (rest & E & _).
    exists rest, (mk_request env wc body).
    split; [| split; [reflexivity | split; [reflexivity |]]].
    + rewrite E. simpl in Hreq. now rewrite Hreq.
    + apply mk_request_well_formed.
  - exists []%list, (mk_request env wc body).
    split; [exact Hreq | split; [reflexivity | split; [reflexivity |]]].
    apply mk_request_well_formed.
Qed.

Lemma retried_initialize_has_no_session_witness :
  let env := Upstreams.unauthorized in
  let body := initRequestBody "x" in
  let err := mkError "Unauthorized" (VNum 401) VUndefined VUndefined in
  exists rest r,
    requests (snd (init_recover env body err States.ready))
    = (rest ++ r :: requests States.ready)%list
    /\ req_body r = body
    /\ req_session r = None
    /\ req_authorization r = configured_authorization env.
Proof.
  intros env body err.
  apply (retried_initialize_has_no_session env body err States.ready);
    reflexivity.
Defined.

(** ** The handler of tools/list *)

Lemma assoc_replace_same (k : string) (v : Value)
  (fields : list (string * Value)) :
  assoc k fields <> VUndefined ->
  assoc k (replace_field k v fields) = v.
Proof.
  induction fields as [|[k' v'] rest IH]; simpl; [congruence |].
  destruct (k' =? k) eqn:E; simpl; rewrite E; auto.
Qed.

Lemma assoc_replace_other (k k' : string) (v : Value)
  (fields : list (string * Value)) :
  k' <> k ->
  assoc k' (replace_field k v fields) = assoc k' fields.
Proof.
  intros Hne.
  induction fields as [|[k0 v0] rest IH]; simpl; [reflexivity |].
  destruct (String.eqb_spec k0 k) as [->|Hk]; simpl.
  - destruct (String.eqb_spec k k'); [congruence | reflexivity].
  - destruct (k0 =? k'); [reflexivity | exact IH].
Qed.

(** X14: the tool list gets the update tool.  When the upstream's result
    for tools/list has an array [tools] (empty or not), the handler returns
    that result with the [update] tool added at the end of the array: the
    upstream's tools keep their order and every other member of the result
    (a cursor, say) is as the upstream sent it; the handler issues no request
    of its own. *)
Theorem tools_list_appends_update (env : Env) (params : Value)
  (w w' : World) (result : Value) (items : list Value) :
  forwardToHttpMcp env "tools/list" params w = (Return (Some result), w') ->
  opt_prop result "tools" = VArr items ->
  exists result',
    handle_tools_list env params w = (Return (Some result'), w')
    /\ opt_prop result' "tools" = VArr (items ++ [update_tool])
    /\ forall k, k <> "tools" -> opt_prop result' k = opt_prop result k.
Proof.
  intros Hfwd Htools.
  destruct result as [| | | | | |fields]; try discriminate.
  exists (VObj (replace_field "tools" (VArr (items ++ [update_tool])) fields)).
  split; [| split].
  - unfold handle_tools_list, bind at 1. rewrite Hfwd.
    unfold push_tool. rewrite Htools. reflexivity.
  - simpl in *. apply assoc_replace_same. rewrite Htools. discriminate.
  - intros k Hk. simpl. now apply assoc_replace_other.
Qed.

Lemma tools_list_appends_update_witness :
  let env :=
    Scenario.scripted
      [Scenario.json_reply 200 None
         "{'jsonrpc':'2.0','id':'1','result':{'tools':[{'name':'echo'}],'nextCursor':'c'}}"] in
  let result :=
    VObj [("tools", VArr [VObj [("name", VStr "echo")]]);
          ("nextCursor", VStr "c")] in
  let w' := snd (forwardToHttpMcp env "tools/list" VUndefined States.ready) in
  exists result',
    handle_tools_list env VUndefined States.ready
    = (Return (Some result'), w')
    /\ opt_prop result' "tools"
       = VArr ([VObj [("name", VStr "echo")]] ++ [update_tool])
    /\ forall k, k <> "tools" -> opt_prop result' k = opt_prop result k.
Proof.
  intros env result w'.
  apply (tools_list_appends_update env VUndefined States.ready w' result
           [VObj [("name", VStr "echo")]]);
    vm_compute; reflexivity.
Defined.

(** X15: the other results of tools/list.  (1) An error of the forwarded
    call reaches the caller of the handler as it is.  (2) A result without a
    truthy [tools] member (no result at all, [null], a result with other
    members only, [tools] empty string or zero) is returned as it is, without
    the update tool.  (3) A result whose [tools] is truthy but not an array
    makes the handler throw a TypeError, although the forwarded call went
    well. *)
Theorem tools_list_other_results (env : Env) (params : Value) (w w' : World) :
  (forall e,
      forwardToHttpMcp env "tools/list" params w = (Throw e, w') ->
      handle_tools_list env params w = (Throw e, w'))
  /\
  (forall result,
      forwardToHttpMcp env "tools/list" params w
      = (Return (Some result), w') ->
      truthy (opt_prop result "tools") = false ->
      handle_tools_list env params w = (Return (Some result), w'))
  /\
  (forall result,
      forwardToHttpMcp env "tools/list" params w
      = (Return (Some result), w') ->
      truthy (opt_prop result "tools") = true ->
      (forall items, opt_prop result "tools" <> VArr items) ->
      handle_tools_list env params w
      = (Throw (TypeError_not_a_function "result.tools.push"), w')).
Proof.
  split; [| split].
  - intros e Hfwd. unfold handle_tools_list, bind. now rewrite Hfwd.
  - intros result Hfwd Hfalsy.
    unfold handle_tools_list, bind at 1. rewrite Hfwd, Hfalsy.
    now rewrite andb_false_r.
  - intros result Hfwd Htruthy Hnot.
    unfold handle_tools_list, bind at 1. rewrite Hfwd, Htruthy.
    rewrite (truthy_opt_prop _ _ Htruthy).
    change (true && true) with true. cbv iota.
    unfold push_tool.
    destruct (opt_prop result "tools") as [| | | | |items|] eqn:E;
      try reflexivity.
    now elim (Hnot items).
Qed.

(** The three cases of [tools_list_other_results], each on a run *)
Lemma tools_list_other_results_witness :
  let call script :=
    fst (handle_tools_list (Scenario.scripted script) VUndefined
           States.ready) in
  call [Scenario.json_reply 500 None "boom"]
  = Throw (mkError "Upstream error 500: boom" (VNum 500) VUndefined VUndefined)
  /\
  call [Scenario.json_reply 200 None
          "{'jsonrpc':'2.0','id':'1','result':{'nextCursor':'c'}}"]
  = Return (Some (VObj [("nextCursor", VStr "c")]))
  /\
  call [Scenario.json_reply 200 None
          "{'jsonrpc':'2.0','id':'1','result':{'tools':{'echo':1}}}"]
  = Throw (TypeError_not_a_function "result.tools.push").
Proof.
  intros call. unfold call. split; [| split].
  - set (env := Scenario.scripted [Scenario.json_reply 500 None "boom"]).
    pose (w' := snd (forwardToHttpMcp env "tools/list" VUndefined
                       States.ready)).
    destruct (tools_list_other_results env VUndefined States.ready w')
      as (H & _).
    rewrite (H (mkError "Upstream error 500: boom" (VNum 500)
                  VUndefined VUndefined));
      [reflexivity | vm_compute; reflexivity].
  - set (env :=
           Scenario.scripted
             [Scenario.json_reply 200 None
                "{'jsonrpc':'2.0','id':'1','result':{'nextCursor':'c'}}"]).
    pose (w' := snd (forwardToHttpMcp env "tools/list" VUndefined
                       States.ready)).
    destruct (tools_list_other_results env VUndefined States.ready w')
      as (_ & H & _).
    rewrite (H (VObj [("nextCursor", VStr "c")]));
      [reflexivity | vm_compute; reflexivity ..].
  - set (env :=
           Scenario.scripted
             [Scenario.json_reply 200 None
                "{'jsonrpc':'2.0','id':'1','result':{'tools':{'echo':1}}}"]).
    pose (w' := snd (forwardToHttpMcp env "tools/list" VUndefined
                       States.ready)).
    destruct (tools_list_other_results env VUndefined States.ready w')
      as (_ & _ & H).
    rewrite (H (VObj [("tools", VObj [("echo", VNum 1)])]));
      [reflexivity | vm_compute; reflexivity | vm_compute; reflexivity |].
    intros items. vm_compute. discriminate.
Defined.

(** ** The handlers *)

Lemma forward_bounded (env : Env) (method : string) (params : Value)
  (w : World) :
  In method forwarded_methods ->
  exists new,
    requests (snd (forwardToHttpMcp env method params w))
    = (new ++ requests w)%list
    /\ handshakes new <= 6 /\ sends new <= 3.
Proof.
  intros Hm.
  destruct (forward_within env method Hm 2 params 0 w) as (new & E & Hb).
  exists new. split; [exact E | exact Hb].
Qed.

(** X16: the bound on one request of the client.  Whatever the upstream
    answers and whatever the parameters are, the handler of each of the
    eight registered methods issues at most three forwarded requests and at
    most six [initialize] requests for one request of the client. *)
Theorem handlers_are_bounded (env : Env) (method : string) (params : Value)
  (h : M (option Value)) (w : World) :
  handle env method params = Some h ->
  exists new,
    requests (snd (h w)) = (new ++ requests w)%list
    /\ handshakes new <= 6 /\ sends new <= 3.
Proof.
  assert (Hnone : exists new,
            requests w = (new ++ requests w)%list
            /\ handshakes new <= 6 /\ sends new <= 3).
  { exists []%list. split; [reflexivity |]. split; cbv; lia. }
  unfold handle.
  destruct (method =? "tools/list") eqn:E1;
    [| destruct (method =? "tools/call") eqn:E2;
       [| destruct (existsb (String.eqb method) forwarded_methods) eqn:E3]].
  - intros [= <-].
    destruct (forward_bounded env "tools/list" params w) as (new & Hreq);
      [simpl; tauto |].
    exists new.
    unfold handle_tools_list, bind.
    destruct (forwardToHttpMcp env "tools/list" params w)
      as [[[result|]|e] w1]; simpl in Hreq; try exact Hreq.
    destruct (truthy result && truthy (opt_prop result "tools"));
      [| exact Hreq].
    unfold lift. destruct (push_tool result update_tool); exact Hreq.
  - intros [= <-].
    unfold handle_tools_call, bind, lift.
    destruct (get_prop params "name") as [name|e]; [| exact Hnone].
    destruct (strict_eq name (VStr "update")); [exact Hnone |].
    apply forward_bounded. simpl. tauto.
  - intros [= <-]. unfold handle_forward.
    apply forward_bounded.
    apply existsb_exists in E3. destruct E3 as (m & Hin & Hm).
    apply String.eqb_eq in Hm. now subst m.
  - discriminate.
Qed.

(** Three forwarded requests are reached. *)
Lemma handlers_are_bounded_witness :
  let env := Upstreams.always_expired in
  let w := startup None None in
  let h := handle_forward env "resources/read" (VObj []) in
  exists new,
    requests (snd (h w)) = (new ++ requests w)%list
    /\ handshakes new <= 6 /\ sends new <= 3.
Proof.
  intros env w h.
  apply (handlers_are_bounded env "resources/read" (VObj []) h w).
  reflexivity.
Defined.

(** ** A rejected session, the cache file, the parameters *)

Lemma http_error_status (env : Env) (res : Response) :
  err_status (http_error env res) = VNum (res_status res).
Proof. reflexivity. Qed.

Lemma non_ok_throws (env : Env) (res : Response) (w : World) :
  res_ok res = false ->
  read_response env res w
  = (Throw (http_error env res),
     adopt env (header_value (res_session res)) w).
Proof.
  intros Hok. unfold read_response, bind.
  now rewrite guarded_save, Hok.
Qed.

(** X17: a rejected session.  When the session is initialized and the
    upstream answers the forwarded request with status 401 or 406, whatever
    the body and the headers of that response, the call goes on with a new
    handshake: the next request is an [initialize] that carries no
    Mcp-Session-Id header (a token that came with the rejection is dropped
    with the old one). *)
Theorem rejected_session_is_renewed (env : Env) (method : string)
  (params : Value) (w : World) (res : Response) :
  upstreamInitialized w = true ->
  upstream env (length (requests w))
    (mk_request env (bump_random w) (send_body env method params w))
  = Resolved res ->
  res_status res = 401%Z \/ res_status res = 406%Z ->
  exists new r,
    requests (snd (forwardToHttpMcp env method params w))
    = (new ++ r
         :: mk_request env (bump_random w) (send_body env method params w)
         :: requests w)%list
    /\ rpc_method (req_body r) = "initialize"
    /\ req_session r = None.
Proof.
  intros Hready Hreply Hstatus.
  set (sent := mk_request env (bump_random w)
                 (send_body env method params w)) in *.
  set (w2 := adopt env (header_value (res_session res))
               (push_request sent (bump_random w))).
  assert (Hok : res_ok res = false).
  { unfold res_ok. destruct Hstatus as [-> | ->]; reflexivity. }
  assert (Hsend : fetchMcp env (send_body env method params w)
                    (bump_random w)
                  = (Throw (http_error env res), w2)).
  { rewrite fetchMcp_unfold.
    change (length (requests (bump_random w))) with (length (requests w)).
    fold sent. rewrite Hreply. now apply non_ok_throws. }
  assert (Hs : isSessionError_thrown (http_error env res) = true).
  { unfold isSessionError_thrown. rewrite http_error_status.
    destruct Hstatus as [-> | ->].
    - change (strict_eq (VNum 401) (VNum 401)) with true.
      now rewrite orb_true_r.
    - change (strict_eq (VNum 406) (VNum 406)) with true.
      now rewrite orb_true_r. }
  rewrite (forward_after_ensure env method params w w
             (ensure_noop env w Hready)).
  unfold try_catch at 1. unfold bind at 1. rewrite Hsend, Hs.
  unfold bind at 1. rewrite forget_session_run.
  destruct (forward_fuel_opens env 0 method (params_or_empty params) 1
              (forgotten w2) eq_refl) as (new & E).
  exists new, (opening_request env (forgotten w2)).
  split; [| split; reflexivity].
  rewrite E. f_equal. f_equal.
  destruct (adopt_frame env (header_value (res_session res))
              (push_request sent (bump_random w))) as (Hreq & _).
  change (requests (forgotten w2)) with (requests w2).
  unfold w2. rewrite Hreq. reflexivity.
Qed.

(** A 401 that comes with a token of its own *)
Lemma rejected_session_is_renewed_witness :
  let env :=
    Scenario.scripted
      [Scenario.json_reply 401 (Some "fresh") "{'error':{'message':'Unauthorized'}}"] in
  exists new r,
    requests (snd (forwardToHttpMcp env "tools/call" (VObj []) States.ready))
    = (new ++ r
         :: mk_request env (bump_random States.ready)
              (send_body env "tools/call" (VObj []) States.ready)
         :: requests States.ready)%list
    /\ rpc_method (req_body r) = "initialize"
    /\ req_session r = None.
Proof.
  intros env.
  apply (rejected_session_is_renewed env "tools/call" (VObj []) States.ready
           {| res_status := 401;
              res_session := Some "fresh";
              res_content_type := Some "application/json";
              res_chunks :=
                [Scenario.txt "{'error':{'message':'Unauthorized'}}"] |}).
  - reflexivity.
  - reflexivity.
  - left. reflexivity.
Defined.

(** X18: the cache file across a restart.  A token that
    [saveSessionToCache] writes (a non-empty string that is not the token in
    memory) is what a process started afterwards without MCP_SESSION_ID
    begins with, up to the white space around it: the same token when it has
    none, no token when it is white space only; and that process begins
    uninitialized. *)
Theorem saved_token_survives_restart (env : Env) (s : string) (w : World) :
  s <> "" ->
  upstreamSessionId w <> VStr s ->
  let restarted := startup None (cache_file (adopt env (VStr s) w)) in
  upstreamSessionId restarted
  = (if trim s =? "" then VNull else VStr (trim s))
  /\ (trim s = s ->
      upstreamSessionId restarted = upstreamSessionId (adopt env (VStr s) w))
  /\ upstreamInitialized restarted = false.
Proof.
  intros Hs Hne restarted.
  destruct (adopt_string env s w Hs) as [Htok Hfile].
  specialize (Hfile Hne).
  assert (H1 : upstreamSessionId restarted
               = (if trim s =? "" then VNull else VStr (trim s))).
  { unfold restarted. rewrite Hfile.
    destruct (startup_token_spec None (Some s)) as [E _].
    rewrite E. unfold startup_token.
    destruct (trim s =? ""); reflexivity. }
  split; [exact H1 | split; [| reflexivity]].
  intros Htrim. rewrite H1, Htok, Htrim.
  destruct (String.eqb_spec s ""); [contradiction | reflexivity].
Qed.

Lemma saved_token_survives_restart_witness :
  let env := Upstreams.agreeable in
  let w := startup None None in
  let restarted := startup None (cache_file (adopt env (VStr "abc") w)) in
  upstreamSessionId restarted
  = (if trim "abc" =? "" then VNull else VStr (trim "abc"))
  /\ (trim "abc" = "abc" ->
      upstreamSessionId restarted
      = upstreamSessionId (adopt env (VStr "abc") w))
  /\ upstreamInitialized restarted = false.
Proof.
  intros env w.
  apply (saved_token_survives_restart env "abc" w); discriminate.
Defined.

Lemma params_or_empty_twice (params : Value) :
  params_or_empty (params_or_empty params) = params_or_empty params.
Proof. destruct params; reflexivity. Qed.

Section Forwarded.

Variable env : Env.
Variable Q : Request -> Prop.

Hypothesis Q_initialize :
  forall w suffix, Q (mk_request env w (initRequestBody suffix)).
Hypothesis Q_notification :
  forall w, Q (mk_request env w initializedNotification).

Lemma all_bind {A B} (m : M A) (k : A -> M B) :
  issues (Forall Q) m -> (forall x, issues (Forall Q) (k x)) ->
  issues (Forall Q) (bind m k).
Proof.
  apply issues_bind; [| auto].
  intros a b Ha Hb. apply Forall_app. now split.
Qed.

Lemma all_try_catch {A} (m : M A) (h : JsError -> M A) :
  issues (Forall Q) m -> (forall e, issues (Forall Q) (h e)) ->
  issues (Forall Q) (try_catch m h).
Proof.
  apply issues_try_catch; [| auto].
  intros a b Ha Hb. apply Forall_app. now split.
Qed.

Lemma all_silent {A} (m : M A) :
  (forall w, requests (snd (m w)) = requests w) -> issues (Forall Q) m.
Proof. apply issues_silent. constructor. Qed.

Lemma all_ensure : issues (Forall Q) (ensureUpstreamInitialized env).
Proof.
  apply (ensure_issues env (fun _ _ => Forall Q)).
  - constructor.
  - intros _ _ _ _ a b Ha Hb. apply Forall_app. now split.
  - intros _ _ _ _ a _ _ Ha. exact Ha.
  - intros w suffix. repeat constructor. apply Q_initialize.
  - intros w. repeat constructor. apply Q_notification.
Qed.

(** A call all of whose forwarded requests have the body made of [method]
    and [p], for parameters that [p] is the default of *)
Lemma all_forward (method : string) (p : Value) :
  (forall w id, Q (mk_request env w (requestBody id method p))) ->
  forall fuel params retryCount,
    params_or_empty params = p ->
    issues (Forall Q)
      (forwardToHttpMcp_fuel env fuel method params retryCount).
Proof.
  intros Q_send.
  induction fuel as [|fuel IH]; intros params retryCount Hp.
  - now apply all_silent.
  - rewrite forward_unfold. unfold forward_body. cbv zeta.
    fold (params_or_empty params). rewrite Hp.
    assert (Hretry : issues (Forall Q)
                       (forget_session ;;
                        forwardToHttpMcp_fuel env fuel method p
                          (retryCount + 1))).
    { apply all_bind; [now apply all_silent |]. intros _.
      apply IH. rewrite <- Hp. apply params_or_empty_twice. }
    apply all_bind; [apply all_ensure |]. intros _.
    apply all_bind; [now apply all_silent |]. intros id.
    apply all_try_catch.
    + apply all_bind.
      { apply fetchMcp_issues. intros w. repeat constructor. apply Q_send. }
      intros data.
      apply all_bind; [now apply all_silent |]. intros error.
      destruct (truthy error); [| now apply all_silent].
      apply all_bind; [now apply all_silent |]. intros errMsg.
      destruct (_ && _); [exact Hretry | now apply all_silent].
    + intros e. destruct (_ && _); [exact Hretry | now apply all_silent].
Qed.

End Forwarded.

(** X19: what is forwarded.  Every request of a call that is not part of a
    handshake, the first attempt and the retries alike, has the method of the
    call and its parameters as they were given (the empty object when there
    are none): the proxy never rewrites them. *)
Theorem params_are_forwarded_unchanged (env : Env) (method : string)
  (params : Value) :
  issues (Forall (forwards_as method params))
    (forwardToHttpMcp env method params).
Proof.
  apply (all_forward env (forwards_as method params)) with
    (p := params_or_empty params).
  - intros w suffix. unfold forwards_as. discriminate.
  - intros w. unfold forwards_as. discriminate.
  - intros w id _. split; reflexivity.
  - reflexivity.
Qed.

(** * The claims on the call as a whole *)

(** ** Reading a stream by its text *)

Lemma split_lines_line (line rest : string) :
  one_line line = true ->
  split_lines (line ++ String newline rest) = line :: split_lines rest.
Proof.
  induction line as [|c line IH]; intros H.
  - reflexivity.
  - simpl in H. apply andb_prop in H. destruct H as [Hc Hl].
    change (String c line ++ String newline rest)
      with (String c (line ++ String newline rest)).
    rewrite split_lines_cons, (IH Hl).
    apply negb_true_iff in Hc. rewrite Hc. reflexivity.
Qed.

Lemma split_lines_terminated (lines : list string) (rest : string) :
  Forall (fun l => one_line l = true) lines ->
  split_lines (terminated lines ++ rest) = (lines ++ split_lines rest)%list.
Proof.
  induction 1 as [|l lines Hl _ IH]; [reflexivity |].
  simpl terminated. rewrite string_app_assoc.
  change (String newline (terminated lines) ++ rest)
    with (String newline (terminated lines ++ rest)).
  rewrite (split_lines_line _ _ Hl), IH. reflexivity.
Qed.

(** What the read loop makes of a body, by its text: the complete lines go
    through [sse_lines], a stream without an answer ends with the error of
    line 153. *)
Lemma read_stream_text (env : Env) (chunks : list string) (w : World) :
  read_stream env chunks "" w
  = match sse_lines env
            (fst (pop (split_lines (String.concat "" chunks)))) w with
    | (Return (Some data), w1) => (Return data, w1)
    | (Return None, w1) => (Throw stream_ended, w1)
    | (Throw e, w1) => (Throw e, w1)
    end.
Proof.
  rewrite read_stream_by_text. cbn [read_stream].
  change ("" ++ String.concat "" chunks) with (String.concat "" chunks).
  destruct (pop (split_lines (String.concat "" chunks))) as [lines buffer'].
  unfold bind. simpl fst.
  destruct (sse_lines env lines w) as [[[data|]|e] w1]; reflexivity.
Qed.

Lemma read_response_stream (env : Env) (res : Response) (w : World) :
  res_ok res = true ->
  includes (match res_content_type res with Some s => s | None => "" end)
    "text/event-stream" = true ->
  read_response env res w
  = read_stream env (res_chunks res) ""
      (adopt env (header_value (res_session res)) w).
Proof.
  intros Hok Hct. unfold read_response, bind.
  now rewrite guarded_save, Hok, Hct.
Qed.

Lemma sse_line_malformed (env : Env) (line : string) (w : World) :
  (exists e, JSON_parse env (trim (slice 6 line)) = Throw e) ->
  sse_line env line w = (Return None, w).
Proof.
  intros (e & Hj). unfold sse_line.
  destruct (startsWith line "data: "); [| reflexivity].
  unfold try_catch, bind, lift. now rewrite Hj.
Qed.

Lemma sse_lines_malformed (env : Env) (lines : list string) (w : World) :
  Forall (fun l => exists e, JSON_parse env (trim (slice 6 l)) = Throw e)
    lines ->
  sse_lines env lines w = (Return None, w).
Proof.
  induction 1 as [|l lines Hl _ IH]; [reflexivity |].
  simpl. unfold bind. now rewrite (sse_line_malformed env l w Hl).
Qed.

(** ** C10: the token of the response body *)




(** ** What the sites that classify an error do *)

Lemma init_should_retry_rule (err : JsError) :
  init_should_retry err = true <-> handshake_rule err.
Proof.
  unfold init_should_retry, handshake_rule, mentions.
  repeat rewrite orb_true_iff.
  repeat rewrite includes_spec.
  repeat rewrite strict_eq_num. tauto.
Qed.

Lemma envelope_rule (error : Value) (errMsg : string) :
  isSessionError_envelope errMsg error = true <-> member_rule error errMsg.
Proof.
  unfold isSessionError_envelope, member_rule.
  repeat rewrite orb_true_iff.
  repeat rewrite includes_spec.
  repeat rewrite strict_eq_num. tauto.
Qed.

Lemma thrown_rule (err : JsError) :
  isSessionError_thrown err = true <-> caught_rule err.
Proof.
  unfold isSessionError_thrown, caught_rule, mentions.
  repeat rewrite orb_true_iff.
  repeat rewrite includes_spec.
  repeat rewrite strict_eq_num. tauto.
Qed.

Lemma not_true_false (b : bool) : b <> true -> b = false.
Proof. destruct b; congruence. Qed.

(** The retry of lines 296-298 and 320-322 starts with a handshake that
    sends no token. *)
Lemma retried_after_forget (env : Env) (method : string) (params : Value)
  (w2 : World) :
  retried w2
    (snd ((forget_session ;;
           forwardToHttpMcp_fuel env 1 method (params_or_empty params) 1) w2)).
Proof.
  unfold bind at 1. rewrite forget_session_run.
  destruct (forward_fuel_opens env 0 method (params_or_empty params) 1
              (forgotten w2) eq_refl) as (new & E).
  exists new, (opening_request env (forgotten w2)).
  split; [exact E | split; reflexivity].
Qed.

Lemma retried_more (w2 w3 w' : World) (more : list Request) :
  retried w2 w3 -> requests w' = (more ++ requests w3)%list -> retried w2 w'.
Proof.
  intros (rest & r & E & Hm & Hs) E'.
  exists (more ++ rest)%list, r. split; [| now split].
  rewrite E', E. apply app_assoc.
Qed.

Lemma caught_session_error_retries (env : Env) (method : string)
  (params : Value) (w w1 w2 : World) (e : JsError) :
  ensureUpstreamInitialized env w = (Return tt, w1) ->
  fetchMcp env (send_body env method params w1) (bump_random w1)
  = (Throw e, w2) ->
  isSessionError_thrown e = true ->
  retried w2 (snd (forwardToHttpMcp env method params w)).
Proof.
  intros Hens Hsend Hs.
  rewrite (forward_after_ensure env method params w w1 Hens).
  unfold try_catch at 1. unfold bind at 1. rewrite Hsend, Hs.
  apply retried_after_forget.
Qed.

Lemma caught_other_error_throws (env : Env) (method : string)
  (params : Value) (w w1 w2 : World) (e : JsError) :
  ensureUpstreamInitialized env w = (Return tt, w1) ->
  fetchMcp env (send_body env method params w1) (bump_random w1)
  = (Throw e, w2) ->
  isSessionError_thrown e = false ->
  forwardToHttpMcp env method params w = (Throw e, w2).
Proof.
  intros Hens Hsend Hns.
  rewrite (forward_after_ensure env method params w w1 Hens).
  unfold try_catch, bind at 1. rewrite Hsend, Hns. reflexivity.
Qed.

(** An [error] member that is not a session error where it is read is not
    one either once line 304 has thrown it. *)
Lemma member_not_session_thrown (error : Value) (errMsg : string) :
  lower_or_empty (opt_prop error "message") = Return errMsg ->
  isSessionError_envelope errMsg error = false ->
  isSessionError_thrown (error_of_envelope error) = false.
Proof.
  unfold lower_or_empty, js_or.
  destruct (truthy (opt_prop error "message")) eqn:Ht.
  - destruct (opt_prop error "message") as [| | | |s| |] eqn:Hm;
      try discriminate.
    intros [= <-]. now apply envelope_error_not_session.
  - intros _ _. unfold isSessionError_thrown, error_of_envelope, js_or.
    rewrite Ht. reflexivity.
Qed.

Lemma lower_or_empty_throws (v : Value) (e : JsError) :
  lower_or_empty v = Throw e -> isSessionError_thrown e = false.
Proof.
  unfold lower_or_empty.
  destruct (js_or v (VStr "")); intros [= <-]; reflexivity.
Qed.

Lemma member_message_spec (error : Value) :
  err_message (error_of_envelope error) = member_message error.
Proof.
  unfold error_of_envelope, member_message, js_or. cbn [err_message].
  destruct (truthy (opt_prop error "message")) eqn:Ht; [| reflexivity].
  unfold new_Error. cbn [err_message].
  destruct (opt_prop error "message"); try reflexivity; discriminate.
Qed.

Section Member.

Variable env : Env.
Variables (method : string) (params : Value).
Variables (w w1 w2 : World) (data : Value).

Hypothesis Hens : ensureUpstreamInitialized env w = (Return tt, w1).
Hypothesis Hsend :
  fetchMcp env (send_body env method params w1) (bump_random w1)
  = (Return data, w2).
Hypothesis Hte : truthy (opt_prop data "error") = true.

Lemma forward_at_member :
  forwardToHttpMcp env method params w
  = try_catch
      (errMsg <- lift (lower_or_empty
                         (opt_prop (opt_prop data "error") "message")) ;;
       if isSessionError_envelope errMsg (opt_prop data "error") then
         forget_session ;;
         forwardToHttpMcp_fuel env 1 method (params_or_empty params) 1
       else throw (error_of_envelope (opt_prop data "error")))
      (fun err =>
         if isSessionError_thrown err then
           forget_session ;;
           forwardToHttpMcp_fuel env 1 method (params_or_empty params) 1
         else throw err)
      w2.
Proof.
  rewrite (forward_after_ensure env method params w w1 Hens).
  unfold try_catch. unfold bind at 1. rewrite Hsend.
  unfold bind at 1, lift at 1.
  rewrite (truthy_get_prop data "error" (truthy_opt_prop _ _ Hte)).
  rewrite Hte. reflexivity.
Qed.

Lemma member_type_error_throws (e : JsError) :
  lower_or_empty (opt_prop (opt_prop data "error") "message") = Throw e ->
  forwardToHttpMcp env method params w = (Throw e, w2).
Proof.
  intros Hlow. rewrite forward_at_member.
  unfold try_catch, bind, lift. rewrite Hlow.
  now rewrite (lower_or_empty_throws _ e Hlow).
Qed.

Lemma member_other_error_throws (errMsg : string) :
  lower_or_empty (opt_prop (opt_prop data "error") "message")
  = Return errMsg ->
  isSessionError_envelope errMsg (opt_prop data "error") = false ->
  forwardToHttpMcp env method params w
  = (Throw (error_of_envelope (opt_prop data "error")), w2).
Proof.
  intros Hlow Hns. rewrite forward_at_member.
  unfold try_catch, bind, lift. rewrite Hlow, Hns. unfold throw.
  now rewrite (member_not_session_thrown _ errMsg Hlow Hns).
Qed.

Lemma member_session_error_retries (errMsg : string) :
  lower_or_empty (opt_prop (opt_prop data "error") "message")
  = Return errMsg ->
  isSessionError_envelope errMsg (opt_prop data "error") = true ->
  retried w2 (snd (forwardToHttpMcp env method params w)).
Proof.
  intros Hlow Hs. rewrite forward_at_member.
  unfold try_catch. unfold bind at 1, lift at 1. rewrite Hlow, Hs.
  pose proof (retried_after_forget env method params w2) as Hretry.
  destruct ((forget_session ;;
             forwardToHttpMcp_fuel env 1 method (params_or_empty params) 1)
              w2) as [[a|e] w3]; [exact Hretry |].
  simpl snd in Hretry.
  destruct (isSessionError_thrown e).
  - assert (Hg : grows (forget_session ;;
                        forwardToHttpMcp_fuel env 1 method
                          (params_or_empty params) 1)).
    { apply grows_bind; [now apply grows_silent |].
      intros _. apply grows_forward. }
    destruct (Hg w3) as (more & E & _).
    exact (retried_more w2 w3 _ more Hretry E).
  - exact Hretry.
Qed.

End Member.

(** ** C8: malformed JSON *)



(** ** C5: what the caller gets *)

Lemma lower_or_empty_throws_init (v : Value) (e : JsError) :
  lower_or_empty v = Throw e ->
  includes (toLowerCase (err_message e)) "already initialized" = false
  /\ init_should_retry e = false.
Proof.
  unfold lower_or_empty.
  destruct (js_or v (VStr "")); intros [= <-]; split; reflexivity.
Qed.



(** ** C4: the classification of errors *)

Lemma ensure_at_catch (env : Env) (w w1 : World) (err : JsError) :
  upstreamInitialized w = false ->
  init_attempt env (initRequestBody (Math_random_id env (random_calls w)))
    (bump_random w)
  = (Throw err, w1) ->
  ensureUpstreamInitialized env w
  = init_recover env (initRequestBody (Math_random_id env (random_calls w)))
      err w1.
Proof.
  intros Hinit Htry.
  unfold ensureUpstreamInitialized, bind, gets. rewrite Hinit.
  unfold Math_random, try_catch. now rewrite Htry.
Qed.

Lemma init_recover_retries (env : Env) (suffix : string) (err : JsError)
  (w : World) :
  includes (toLowerCase (err_message err)) "already initialized" = false ->
  init_should_retry err = true ->
  retried w (snd (init_recover env (initRequestBody suffix) err w)).
Proof.
  intros Hsaid Hretry.
  unfold init_recover. rewrite Hsaid, Hretry.
  unfold bind at 1, modify at 1.
  set (wc := set_initialized false (set_session VNull w)).
  pose proof (fetchMcp_requests env (initRequestBody suffix) wc) as Hreq.
  unfold bind at 1.
  destruct (fetchMcp env (initRequestBody suffix) wc) as [[retryData|e] w2].
  - destruct (grows_retry_tail env retryData w2) as (rest & E & _).
    exists rest, (mk_request env wc (initRequestBody suffix)).
    split; [| split; reflexivity].
    rewrite E. simpl in Hreq. now rewrite Hreq.
  - exists []%list, (mk_request env wc (initRequestBody suffix)).
    split; [exact Hreq | split; reflexivity].
Qed.

(** C4, as the code has it.  Errors are classified at three sites, each
    with its own rule and its own precedence.

    (1) In the [catch] of the handshake (lines 229-266), for whatever the
    [try] block threw: an error whose message says [already initialized]
    ends the handshake as a success (line 233), also when it has status 401
    or names the session; otherwise the keywords [not initialized] and
    [session] and the statuses 401 and 406 (neither [expired] nor the code
    -32000) make the handshake send [initialize] again without a token; any
    other error is thrown.

    (2) For an [error] member of the response to a forwarded request (lines
    285-305): a message that is truthy and not a string makes line 288 throw
    a TypeError that reaches the caller, whatever the code; otherwise the
    three keywords in the message and the code -32000 (no status) make the
    call drop the session and start again with a handshake; any other member
    is thrown to the caller as the error of lines 301-304.

    (3) For an error caught around a forwarded request (lines 306-327): the
    three keywords and the statuses 401 and 406 (no code) make the call
    drop the session and start again; any other error is thrown as it is. *)
Theorem classification_by_site (env : Env) :
  (forall w w1 err,
      upstreamInitialized w = false ->
      init_attempt env (initRequestBody (Math_random_id env (random_calls w)))
        (bump_random w)
      = (Throw err, w1) ->
      (mentions (err_message err) "already initialized" ->
       ensureUpstreamInitialized env w = (Return tt, set_initialized true w1))
      /\ (~ mentions (err_message err) "already initialized" ->
          handshake_rule err ->
          retried w1 (snd (ensureUpstreamInitialized env w)))
      /\ (~ mentions (err_message err) "already initialized" ->
          ~ handshake_rule err ->
          ensureUpstreamInitialized env w = (Throw err, w1)))
  /\
  (forall method params w w1 w2 data,
      ensureUpstreamInitialized env w = (Return tt, w1) ->
      fetchMcp env (send_body env method params w1) (bump_random w1)
      = (Return data, w2) ->
      truthy (opt_prop data "error") = true ->
      let error := opt_prop data "error" in
      (forall e,
          lower_or_empty (opt_prop error "message") = Throw e ->
          forwardToHttpMcp env method params w = (Throw e, w2))
      /\ (forall errMsg,
             lower_or_empty (opt_prop error "message") = Return errMsg ->
             (member_rule error errMsg ->
              retried w2 (snd (forwardToHttpMcp env method params w)))
             /\ (~ member_rule error errMsg ->
                 forwardToHttpMcp env method params w
                 = (Throw (error_of_envelope error), w2))))
  /\
  (forall method params w w1 w2 err,
      ensureUpstreamInitialized env w = (Return tt, w1) ->
      fetchMcp env (send_body env method params w1) (bump_random w1)
      = (Throw err, w2) ->
      (caught_rule err ->
       retried w2 (snd (forwardToHttpMcp env method params w)))
      /\ (~ caught_rule err ->
          forwardToHttpMcp env method params w = (Throw err, w2))).
Proof.
  split; [| split].
  - intros w w1 err Hinit Htry.
    rewrite (ensure_at_catch env w w1 err Hinit Htry).
    unfold mentions. rewrite <- includes_spec.
    split; [| split].
    + intros Hsaid. unfold init_recover. now rewrite Hsaid.
    + intros Hsaid Hrule.
      apply init_recover_retries.
      * now apply not_true_false.
      * now apply init_should_retry_rule.
    + intros Hsaid Hrule. unfold init_recover.
      rewrite (not_true_false _ Hsaid).
      assert (init_should_retry err = false) as ->; [| reflexivity].
      apply not_true_false. intros H. apply Hrule.
      now apply init_should_retry_rule.
  - intros method params w w1 w2 data Hens Hsend Hte error. subst error.
    split.
    + intros e Hlow.
      exact (member_type_error_throws env method params w w1 w2 data
               Hens Hsend Hte e Hlow).
    + intros errMsg Hlow. split; intros Hrule.
      * apply (member_session_error_retries env method params w w1 w2 data
                 Hens Hsend Hte errMsg Hlow).
        now apply envelope_rule.
      * apply (member_other_error_throws env method params w w1 w2 data
                 Hens Hsend Hte errMsg Hlow).
        apply not_true_false. intros H. apply Hrule.
        now apply envelope_rule.
  - intros method params w w1 w2 err Hens Hsend. split; intros Hrule.
    + apply (caught_session_error_retries env method params w w1 w2 err
               Hens Hsend).
      now apply thrown_rule.
    + apply (caught_other_error_throws env method params w w1 w2 err
               Hens Hsend).
      apply not_true_false. intros H. apply Hrule. now apply thrown_rule.
Qed.

(** The precedences on runs: a 401 that says the session is initialized
    already ends the handshake well after one request; a member with the
    code -32000 and the message 42 reaches the caller as a TypeError; a 406
    on the forwarded request starts the call again. *)
Lemma classification_by_site_witness :
  let already :=
    Scenario.scripted
      [Scenario.json_reply 401 None "Session already initialized"] in
  let numeric :=
    Scenario.scripted
      [Scenario.json_reply 200 None
         "{'jsonrpc':'2.0','id':'1','error':{'code':-32000,'message':42}}"] in
  let refused := Scenario.scripted [Scenario.json_reply 406 None "no"] in
  let sent env :=
    snd (fetchMcp env (send_body env "tools/list" VUndefined States.ready)
           (bump_random States.ready)) in
  (fst (ensureUpstreamInitialized already (startup None None)) = Return tt
   /\ Scenario.methods_of
        (snd (ensureUpstreamInitialized already (startup None None)))
      = ["initialize"]%list)
  /\
  forwardToHttpMcp numeric "tools/list" VUndefined States.ready
  = (Throw TypeError_toLowerCase, sent numeric)
  /\
  retried (sent refused)
    (snd (forwardToHttpMcp refused "tools/list" VUndefined States.ready)).
Proof.
  intros already numeric refused sent.
  split; [| split].
  - destruct (classification_by_site already) as (H & _).
    pose (w := startup None None).
    pose (attempt :=
            init_attempt already
              (initRequestBody (Math_random_id already (random_calls w)))
              (bump_random w)).
    destruct (H w (snd attempt)
                (mkError "Upstream error 401: Session already initialized"
                   (VNum 401) VUndefined VUndefined))
      as (Hdone & _); [reflexivity | vm_compute; reflexivity |].
    fold w. rewrite Hdone.
    + split; vm_compute; reflexivity.
    + apply includes_spec. vm_compute. reflexivity.
  - destruct (classification_by_site numeric) as (_ & H & _).
    destruct (H "tools/list" VUndefined States.ready States.ready
                (sent numeric)
                (VObj [("jsonrpc", VStr "2.0"); ("id", VStr "1");
                       ("error",
                        VObj [("code", VNum (-32000)); ("message", VNum 42)])]))
      as (Hthrow & _); [reflexivity | vm_compute; reflexivity | reflexivity |].
    apply Hthrow. reflexivity.
  - destruct (classification_by_site refused) as (_ & _ & H).
    destruct (H "tools/list" VUndefined States.ready States.ready
                (sent refused)
                (mkError "Upstream error 406: no" (VNum 406)
                   VUndefined VUndefined))
      as (Hretry & _); [reflexivity | vm_compute; reflexivity |].
    apply Hretry. right. right. right. right. reflexivity.
Defined.

(** ** C6: reuse of the session *)

Section Reuse.

Variable env : Env.
Variable T : string.
Hypothesis T_not_empty : T <> "".
Hypothesis upstream_answers : answered env.
Hypothesis upstream_keeps : keeps env T.

Lemma mk_request_carries (w : World) (body : RequestBody) :
  upstreamSessionId w = VStr T -> carries T (mk_request env w body).
Proof.
  intros Htok. unfold carries, mk_request. simpl. rewrite Htok. simpl.
  destruct (String.eqb_spec T ""); [contradiction | reflexivity].
Qed.

Lemma handshake_goes_well (w : World) (suffix : string) :
  reaches env T w ->
  goes_well env T (initRequestBody suffix) (bump_random w).
Proof.
  intros [Htok | [_ Hassigns]].
  - now apply upstream_keeps.
  - now apply Hassigns.
Qed.

(** The handshake from a state that reaches [T] *)
Lemma ensure_reaches (w : World) :
  reaches env T w ->
  exists w1 new,
    ensureUpstreamInitialized env w = (Return tt, w1)
    /\ requests w1 = (new ++ requests w)%list
    /\ upstreamInitialized w1 = true
    /\ upstreamSessionId w1 = VStr T
    /\ handshakes new = (if upstreamInitialized w then 0 else 1)
    /\ sends new = 0
    /\ Forall (carries_after_handshake T) new
    /\ (upstreamSessionId w = VStr T -> Forall (carries T) new).
Proof.
  intros Hstart.
  destruct (upstreamInitialized w) eqn:Hinit.
  - destruct Hstart as [Htok | [Hno _]]; [| congruence].
    exists w, []%list.
    split; [now apply ensure_noop |].
    repeat split; auto; constructor.
  - set (body := initRequestBody (Math_random_id env (random_calls w))).
    destruct (handshake_goes_well w (Math_random_id env (random_calls w))
                Hstart)
      as (data & w1 & Hsend & Hget & Hfalsy & Htok1).
    fold body in Hsend.
    pose proof (fetchMcp_requests env body (bump_random w)) as Hreq.
    destruct (fetchMcp_frame env body (bump_random w)) as [Hflag _].
    rewrite Hsend in Hreq, Hflag. simpl in Hreq, Hflag.
    set (notice := mk_request env w1 initializedNotification).
    destruct (upstream_answers (length (requests w1)) notice) as (res & Hres).
    exists (set_initialized true (push_request notice w1)),
           [notice; mk_request env (bump_random w) body].
    split.
    { unfold ensureUpstreamInitialized, bind, gets. rewrite Hinit.
      unfold Math_random, try_catch, init_attempt, init_after_response, bind.
      fold body. rewrite Hsend. unfold lift. rewrite Hget, Hfalsy.
      unfold send_initialized, bind, gets, fetch, ret, modify.
      fold notice. rewrite Hres. reflexivity. }
    split; [simpl; now rewrite Hreq |].
    split; [reflexivity |].
    split; [exact Htok1 |].
    split; [reflexivity |].
    split; [reflexivity |].
    split.
    + constructor; [intros _; now apply mk_request_carries |].
      constructor; [discriminate | constructor].
    + intros Htok.
      constructor; [now apply mk_request_carries |].
      constructor; [now apply mk_request_carries | constructor].
Qed.

(** One forwarded call from a state that reaches [T] *)
Lemma forward_reaches (method : string) (params : Value) (w : World) :
  In method forwarded_methods ->
  reaches env T w ->
  exists v w2 new,
    forwardToHttpMcp env method params w = (Return (Some v), w2)
    /\ requests w2 = (new ++ requests w)%list
    /\ upstreamInitialized w2 = true
    /\ upstreamSessionId w2 = VStr T
    /\ handshakes new = (if upstreamInitialized w then 0 else 1)
    /\ sends new = 1
    /\ Forall (carries_after_handshake T) new
    /\ (upstreamSessionId w = VStr T -> Forall (carries T) new).
Proof.
  intros Hm Hstart.
  destruct (forwarded_method_kind method Hm) as [Hi Hn].
  destruct (ensure_reaches w Hstart)
    as (w1 & new1 & Hens & E1 & Hinit1 & Htok1 & Hh1 & Hs1 & Hc1 & Hall1).
  set (body := send_body env method params w1).
  destruct (upstream_keeps body (bump_random w1) Htok1)
    as (data & w2 & Hsend & Hget & Hfalsy & Htok2).
  pose proof (fetchMcp_requests env body (bump_random w1)) as Hreq.
  destruct (fetchMcp_frame env body (bump_random w1)) as [Hflag _].
  rewrite Hsend in Hreq, Hflag. simpl in Hreq, Hflag.
  set (sent := mk_request env (bump_random w1) body) in *.
  assert (Hsent : carries T sent) by now apply mk_request_carries.
  exists (opt_prop data "result"), w2, ([sent] ++ new1)%list.
  split.
  { rewrite (forward_after_ensure env method params w w1 Hens).
    fold body. unfold try_catch, bind at 1. rewrite Hsend.
    unfold bind at 1, lift at 1. now rewrite Hget, Hfalsy. }
  split; [rewrite Hreq, E1; reflexivity |].
  split; [now rewrite Hflag |].
  split; [exact Htok2 |].
  split.
  { rewrite handshakes_app, Hh1.
    unfold handshakes, is_initialize. simpl. now rewrite Hi. }
  split.
  { rewrite sends_app, Hs1.
    unfold sends, is_send, is_initialize, is_notification. simpl.
    now rewrite Hi, Hn. }
  split.
  - apply Forall_app. split; [| exact Hc1].
    constructor; [intros _; exact Hsent | constructor].
  - intros Htok. apply Forall_app. split; [| now apply Hall1].
    constructor; [exact Hsent | constructor].
Qed.


End Reuse.

Lemma assigning_answers : answered Upstreams.assigning.
Proof.
  intros n req. unfold Upstreams.assigning. simpl.
  destruct (rpc_method (req_body req) =? "initialize"); eexists; reflexivity.
Qed.

Lemma assigning_goes_well (body : RequestBody) (w : World) :
  rpc_method body = "initialize" \/ upstreamSessionId w = VStr "T" ->
  goes_well Upstreams.assigning "T" body w.
Proof.
  intros H.
  set (doc := VObj [("jsonrpc", VStr "2.0"); ("result", VObj [])]).
  set (w0 := push_request (mk_request Upstreams.assigning w body) w).
  destruct (rpc_method body =? "initialize") eqn:E.
  - exists doc, (adopt Upstreams.assigning (VStr "T") w0).
    split; [| split; [reflexivity | split; [reflexivity |]]].
    + rewrite fetchMcp_unfold.
      change (upstream Upstreams.assigning (length (requests w))
                (mk_request Upstreams.assigning w body))
        with (if rpc_method body =? "initialize"
              then Scenario.json_reply 200 (Some "T")
                     "{'jsonrpc':'2.0','result':{}}"
              else Scenario.json_reply 200 None
                     "{'jsonrpc':'2.0','result':{}}").
      rewrite E. unfold Scenario.json_reply, read_response, bind.
      rewrite guarded_save. reflexivity.
    + now apply adopt_session.
  - destruct H as [H | Htok];
      [rewrite H in E; discriminate |].
    exists doc, w0.
    split; [| split; [reflexivity | split; [reflexivity | exact Htok]]].
    rewrite fetchMcp_unfold.
    change (upstream Upstreams.assigning (length (requests w))
              (mk_request Upstreams.assigning w body))
      with (if rpc_method body =? "initialize"
            then Scenario.json_reply 200 (Some "T")
                   "{'jsonrpc':'2.0','result':{}}"
            else Scenario.json_reply 200 None
                   "{'jsonrpc':'2.0','result':{}}").
    rewrite E. reflexivity.
Qed.

Lemma assigning_keeps : keeps Upstreams.assigning "T".
Proof. intros body w Htok. apply assigning_goes_well. now right. Qed.

Lemma assigning_assigns : assigns Upstreams.assigning "T".
Proof. intros body w Hm. apply assigning_goes_well. now left. Qed.

